(** * Coffee Core site: interest capture, notification and fallback

    A shallow embedding of [src/CoffeeCoreSite.tsx], the single React
    component of the site.  The component keeps four pieces of React state
    ([open], [clickedProduct], [submitting], [submitMsg]) and talks to the
    browser through [fetch], [alert], [window.location.href], the DOM class
    list of a section and [window.setTimeout].

    The embedding follows the code:
    - the React state is a record, each [setX(v)] is an assignment;
    - the browser is an explicit world: the log of issued requests, the
      promises still in flight with the continuation that awaits them, the
      alerts shown, the assignments to [window.location.href], the class
      lists of the elements with an id, the pending timers and a clock;
    - handler bodies run in a small state-and-exception monad with
      [try]/[catch]/[finally] written out, so that an exception escaping a
      handler is visible as such;
    - an [async] handler is split at its single [await]: the part before it
      runs when the event fires, the part after it runs when the promise
      settles, with the variables of the closure it captured;
    - JavaScript strings are modelled by the bytes of their UTF-8 encoding,
      which is what [encodeURIComponent] percent-encodes and what a JSON
      body carries on the wire (lone surrogates are not representable). *)

From Stdlib Require Import ZArith NArith String Ascii List Bool Lia.
From stdpp Require Import base option list gmap strings.

Local Open Scope string_scope.
Local Open Scope list_scope.
Local Open Scope Z_scope.

(** ** Platform functions used by the component *)

Module Platform.

(** The numeric code of a byte, and the byte of a code below 256. *)
Definition code (c : ascii) : Z := Z.of_N (N_of_ascii c).
Definition chr (n : Z) : ascii := ascii_of_N (Z.to_N n).

Definition within (lo hi : Z) (c : ascii) : bool :=
  (lo <=? code c) && (code c <=? hi).

Definition is_digit (c : ascii) : bool := within 48 57 c.
Definition is_alpha (c : ascii) : bool := within 65 90 c || within 97 122 c.

(** Hexadecimal digits, upper case ([encodeURIComponent]) and lower case
    ([JSON.stringify]). *)
Definition hex_upper (d : Z) : ascii :=
  if d <? 10 then chr (48 + d) else chr (55 + d).
Definition hex_lower (d : Z) : ascii :=
  if d <? 10 then chr (48 + d) else chr (87 + d).

Definition hex_value (c : ascii) : option Z :=
  if is_digit c then Some (code c - 48)
  else if within 65 70 c then Some (code c - 55)
  else if within 97 102 c then Some (code c - 87)
  else None.

(** *** [encodeURIComponent]

    Every byte is escaped as [%XX] but for the unreserved marks
    [A-Z a-z 0-9 - _ . ! ~ * ' ( )]. *)
Definition uri_unreserved (c : ascii) : bool :=
  is_alpha c || is_digit c
  || bool_decide (code c ∈ [45; 95; 46; 33; 126; 42; 39; 40; 41]).

Definition percent : ascii := chr 37.

Fixpoint encodeURIComponent (s : string) : string :=
  match s with
  | EmptyString => EmptyString
  | String c rest =>
      if uri_unreserved c then String c (encodeURIComponent rest)
      else String percent
             (String (hex_upper (code c / 16))
                (String (hex_upper (code c mod 16)) (encodeURIComponent rest)))
  end.

(** Percent-decoding, as the receiver of a [mailto:] link applies it to the
    fields of the link; [None] on a malformed escape. *)
Fixpoint percent_decode (s : string) : option string :=
  match s with
  | EmptyString => Some EmptyString
  | String c rest =>
      if bool_decide (c = percent) then
        match rest with
        | String h (String l rest') =>
            match hex_value h, hex_value l, percent_decode rest' with
            | Some hv, Some lv, Some r => Some (String (chr (16 * hv + lv)) r)
            | _, _, _ => None
            end
        | _ => None
        end
      else String c <$> percent_decode rest
  end.

(** *** [JSON.stringify] on the objects the component sends *)
Inductive Json : Type :=
  | JString (s : string)
  | JObject (fields : list (string * string)).

Definition dquote : ascii := chr 34.
Definition backslash : ascii := chr 92.

Definition json_escape_char (c : ascii) : string :=
  if bool_decide (c = dquote) then String backslash (String dquote EmptyString)
  else if bool_decide (c = backslash) then String backslash (String backslash EmptyString)
  else if bool_decide (code c = 8) then String backslash "b"
  else if bool_decide (code c = 12) then String backslash "f"
  else if bool_decide (code c = 10) then String backslash "n"
  else if bool_decide (code c = 13) then String backslash "r"
  else if bool_decide (code c = 9) then String backslash "t"
  else if code c <? 32 then
    String backslash
      (String "u" (String "0" (String "0"
         (String (hex_lower (code c / 16))
            (String (hex_lower (code c mod 16)) EmptyString)))))
  else String c EmptyString.

Fixpoint json_escape (s : string) : string :=
  match s with
  | EmptyString => EmptyString
  | String c rest => json_escape_char c +:+ json_escape rest
  end.

Definition json_quote (s : string) : string :=
  String dquote (json_escape s +:+ String dquote EmptyString).

Fixpoint json_members (fields : list (string * string)) : string :=
  match fields with
  | [] => EmptyString
  | [(k, v)] => json_quote k +:+ ":" +:+ json_quote v
  | (k, v) :: rest => json_quote k +:+ ":" +:+ json_quote v +:+ "," +:+ json_members rest
  end.

Definition JSON_stringify (j : Json) : string :=
  match j with
  | JString s => json_quote s
  | JObject fields => "{" +:+ json_members fields +:+ "}"
  end.

(** *** [new Date().toISOString()]

    The clock reading is the number of milliseconds since the epoch.  The
    calendar date is obtained from the day number by the usual proleptic
    Gregorian computation on 400-year eras starting on 1 March. *)
Definition msPerDay : Z := 86400000.

Definition civil_from_days (days : Z) : Z * Z * Z :=
  let z := days + 719468 in
  let era := z / 146097 in
  let doe := z - era * 146097 in
  let yoe := (doe - doe / 1460 + doe / 36524 - doe / 146096) / 365 in
  let doy := doe - (365 * yoe + yoe / 4 - yoe / 100) in
  let mp := (5 * doy + 2) / 153 in
  let d := doy - (153 * mp + 2) / 5 + 1 in
  let m := if mp <? 10 then mp + 3 else mp - 9 in
  let y := yoe + era * 400 + (if m <=? 2 then 1 else 0) in
  (y, m, d).

Definition digit (n : Z) : ascii := chr (48 + n mod 10).

Definition pad2 (n : Z) : string :=
  String (digit (n / 10)) (String (digit n) EmptyString).
Definition pad3 (n : Z) : string :=
  String (digit (n / 100)) (pad2 n).
Definition pad4 (n : Z) : string :=
  String (digit (n / 1000)) (pad3 n).
Definition pad6 (n : Z) : string :=
  String (digit (n / 100000)) (String (digit (n / 10000)) (pad4 n)).

(** Years 0 to 9999 are written with four digits, the others with a sign
    and six digits. *)
Definition iso_year (y : Z) : string :=
  if (0 <=? y) && (y <=? 9999) then pad4 y
  else if y <? 0 then String "-" (pad6 (- y))
  else String "+" (pad6 y).

Definition toISOString (t : Z) : string :=
  let '(y, m, d) := civil_from_days (t / msPerDay) in
  let ms := t mod msPerDay in
  iso_year y +:+ "-" +:+ pad2 m +:+ "-" +:+ pad2 d +:+ "T"
  +:+ pad2 (ms / 3600000) +:+ ":" +:+ pad2 (ms / 60000 mod 60) +:+ ":"
  +:+ pad2 (ms / 1000 mod 60) +:+ "." +:+ pad3 (ms mod 1000) +:+ "Z".

(** The shape of an ISO-8601 instant in UTC, as [toISOString] prints it:
    [YYYY-MM-DDTHH:mm:ss.sssZ], the year possibly in its signed six-digit
    form. *)
Inductive Slot : Type :=
  | Digit
  | Lit (c : ascii).

Fixpoint has_shape (shape : list Slot) (s : string) : bool :=
  match shape, s with
  | [], EmptyString => true
  | Digit :: shape', String c rest => is_digit c && has_shape shape' rest
  | Lit l :: shape', String c rest => bool_decide (c = l) && has_shape shape' rest
  | _, _ => false
  end.

Definition iso_tail : list Slot :=
  [Lit "-"; Digit; Digit; Lit "-"; Digit; Digit; Lit "T";
   Digit; Digit; Lit ":"; Digit; Digit; Lit ":"; Digit; Digit;
   Lit "."; Digit; Digit; Digit; Lit "Z"]%char.

Definition is_iso8601 (s : string) : bool :=
  has_shape (replicate 4 Digit ++ iso_tail) s
  || has_shape (Lit "+"%char :: replicate 6 Digit ++ iso_tail) s
  || has_shape (Lit "-"%char :: replicate 6 Digit ++ iso_tail) s.

End Platform.
Import Platform.

(** ** The product catalog *)

Inductive Status : Type := presente | futuro.

Record Product : Type := {
  id : string;
  name : string;
  status : Status;
  summary : string;
  tag : string;
  color : string;
}.

Definition products : list Product := [
  {| id := "polifenoli";
     name := "Polifenoli & Bioattivi (upcycled)";
     status := presente;
     summary := "Estratti ad alto valore da scarti di caffè per nutraceutica, food & beverage e cosmetica.";
     tag := "Core";
     color := "bg-[#57992D]" |};
  {| id := "pellet";
     name := "Pellet da scarti di caffè";
     status := futuro;
     summary := "Combustibile sostenibile e tracciabile ottenuto dal residuo di lavorazione.";
     tag := "R&D";
     color := "bg-[#8E4A49]" |};
  {| id := "bevande";
     name := "Bevande con bioattivi aggiunti";
     status := futuro;
     summary := "Linea di drink funzionali con antiossidanti naturali estratti dal caffè.";
     tag := "R&D";
     color := "bg-[#3B7080]" |};
  {| id := "oli-cosmesi";
     name := "Oli per la cosmesi";
     status := futuro;
     summary := "Oli e lipidi da fondi di caffè per skincare e haircare con ingredienti circolari.";
     tag := "R&D";
     color := "bg-[#D8C27A]" |}
].

(** ** React state of the component (the four [useState] cells) *)

Record Component : Type := {
  open : bool;
  clickedProduct : option Product;
  submitting : bool;
  submitMsg : option string;
}.

(** The modal is rendered under [open && clickedProduct]. *)
Definition modal_rendered (c : Component) : option Product :=
  if open c then clickedProduct c else None.

(** ** The browser *)

Record Request : Type := {
  url : string;
  method : string;
  headers : list (string * string);
  body : string;
}.

Record Response : Type := { ok : bool }.

Inductive JsError : Type :=
  | Error (message : string)
  | TypeError (message : string).

(** How the promise returned by [fetch] settles. *)
Inductive FetchResult : Type :=
  | Fulfilled (res : Response)
  | NetworkError (reason : JsError).

(** What awaits a promise in flight: the rest of one of the three handlers,
    with the [clickedProduct] its closure captured where it reads it. *)
Inductive Continuation : Type :=
  | AfterFakeDoorFetch
  | AfterModalFetch (clickedProduct : Product)
  | AfterContactFetch.

(** The only timer callback of the page:
    [() => el.classList.remove("cc-highlight")], [el] being the element
    found under [elementId]. *)
Inductive TimerCallback : Type :=
  | RemoveHighlight (elementId : string).

Record Timer : Type := {
  due : N;
  callback : TimerCallback;
}.

Record World : Type := {
  ui : Component;
  network : list Request;
  pending : gmap nat Continuation;
  alerts : list string;
  location_href : list string;
  form_resets : nat;
  document : gmap string (list string);
  scrolled : list string;
  clock : N;
  timers : list Timer;
  uncaught : list JsError;
}.

Definition with_ui (f : Component → Component) (w : World) : World :=
  {| ui := f (ui w); network := network w; pending := pending w;
     alerts := alerts w; location_href := location_href w;
     form_resets := form_resets w; document := document w;
     scrolled := scrolled w; clock := clock w; timers := timers w;
     uncaught := uncaught w |}.

Definition with_network (f : list Request → list Request) (w : World) : World :=
  {| ui := ui w; network := f (network w); pending := pending w;
     alerts := alerts w; location_href := location_href w;
     form_resets := form_resets w; document := document w;
     scrolled := scrolled w; clock := clock w; timers := timers w;
     uncaught := uncaught w |}.

Definition with_pending
    (f : gmap nat Continuation → gmap nat Continuation) (w : World) : World :=
  {| ui := ui w; network := network w; pending := f (pending w);
     alerts := alerts w; location_href := location_href w;
     form_resets := form_resets w; document := document w;
     scrolled := scrolled w; clock := clock w; timers := timers w;
     uncaught := uncaught w |}.

Definition with_alerts (f : list string → list string) (w : World) : World :=
  {| ui := ui w; network := network w; pending := pending w;
     alerts := f (alerts w); location_href := location_href w;
     form_resets := form_resets w; document := document w;
     scrolled := scrolled w; clock := clock w; timers := timers w;
     uncaught := uncaught w |}.

Definition with_location_href (f : list string → list string) (w : World) : World :=
  {| ui := ui w; network := network w; pending := pending w;
     alerts := alerts w; location_href := f (location_href w);
     form_resets := form_resets w; document := document w;
     scrolled := scrolled w; clock := clock w; timers := timers w;
     uncaught := uncaught w |}.

Definition with_form_resets (f : nat → nat) (w : World) : World :=
  {| ui := ui w; network := network w; pending := pending w;
     alerts := alerts w; location_href := location_href w;
     form_resets := f (form_resets w); document := document w;
     scrolled := scrolled w; clock := clock w; timers := timers w;
     uncaught := uncaught w |}.

Definition with_document
    (f : gmap string (list string) → gmap string (list string)) (w : World) : World :=
  {| ui := ui w; network := network w; pending := pending w;
     alerts := alerts w; location_href := location_href w;
     form_resets := form_resets w; document := f (document w);
     scrolled := scrolled w; clock := clock w; timers := timers w;
     uncaught := uncaught w |}.

Definition with_scrolled (f : list string → list string) (w : World) : World :=
  {| ui := ui w; network := network w; pending := pending w;
     alerts := alerts w; location_href := location_href w;
     form_resets := form_resets w; document := document w;
     scrolled := f (scrolled w); clock := clock w; timers := timers w;
     uncaught := uncaught w |}.

Definition with_clock (f : N → N) (w : World) : World :=
  {| ui := ui w; network := network w; pending := pending w;
     alerts := alerts w; location_href := location_href w;
     form_resets := form_resets w; document := document w;
     scrolled := scrolled w; clock := f (clock w); timers := timers w;
     uncaught := uncaught w |}.

Definition with_timers (f : list Timer → list Timer) (w : World) : World :=
  {| ui := ui w; network := network w; pending := pending w;
     alerts := alerts w; location_href := location_href w;
     form_resets := form_resets w; document := document w;
     scrolled := scrolled w; clock := clock w; timers := f (timers w);
     uncaught := uncaught w |}.

Definition with_uncaught (f : list JsError → list JsError) (w : World) : World :=
  {| ui := ui w; network := network w; pending := pending w;
     alerts := alerts w; location_href := location_href w;
     form_resets := form_resets w; document := document w;
     scrolled := scrolled w; clock := clock w; timers := timers w;
     uncaught := f (uncaught w) |}.

(** ** Handler bodies: state and exceptions *)

Inductive Completion (A : Type) : Type :=
  | Normal (a : A) (w : World)
  | Throw (e : JsError) (w : World).
Arguments Normal {A} a w.
Arguments Throw {A} e w.

Definition JS (A : Type) : Type := World → Completion A.

Definition ret {A} (a : A) : JS A := fun w => Normal a w.

Definition bind {A B} (m : JS A) (k : A → JS B) : JS B :=
  fun w =>
    match m w with
    | Normal a w' => k a w'
    | Throw e w' => Throw e w'
    end.

Definition throw {A} (e : JsError) : JS A := fun w => Throw e w.

Definition try_catch {A} (body : JS A) (handler : JsError → JS A) : JS A :=
  fun w =>
    match body w with
    | Normal a w' => Normal a w'
    | Throw e w' => handler e w'
    end.

(** [try { body } finally { cleanup }]: the cleanup runs on both exits and
    the completion of the body stands unless the cleanup throws. *)
Definition try_finally {A} (body : JS A) (cleanup : JS unit) : JS A :=
  fun w =>
    match body w with
    | Normal a w' =>
        match cleanup w' with
        | Normal _ w'' => Normal a w''
        | Throw e w'' => Throw e w''
        end
    | Throw e w' =>
        match cleanup w' with
        | Normal _ w'' => Throw e w''
        | Throw e' w'' => Throw e' w''
        end
    end.

Definition modify (f : World → World) : JS unit := fun w => Normal tt (f w).

Declare Scope js_scope.
Delimit Scope js_scope with js.
Notation "x <- m ;; k" := (bind m (fun x => k))
  (at level 100, m at next level, right associativity) : js_scope.
Notation "m ;; k" := (bind m (fun _ => k))
  (at level 100, right associativity) : js_scope.
Local Open Scope js_scope.

(** *** State setters and browser calls *)

Definition setOpen (b : bool) : JS unit :=
  modify (with_ui (fun c =>
    {| open := b; clickedProduct := clickedProduct c;
       submitting := submitting c; submitMsg := submitMsg c |})).

Definition setClickedProduct (p : option Product) : JS unit :=
  modify (with_ui (fun c =>
    {| open := open c; clickedProduct := p;
       submitting := submitting c; submitMsg := submitMsg c |})).

Definition setSubmitting (b : bool) : JS unit :=
  modify (with_ui (fun c =>
    {| open := open c; clickedProduct := clickedProduct c;
       submitting := b; submitMsg := submitMsg c |})).

Definition setSubmitMsg (m : option string) : JS unit :=
  modify (with_ui (fun c =>
    {| open := open c; clickedProduct := clickedProduct c;
       submitting := submitting c; submitMsg := m |})).

(** [fetch(url, init)] issues the request at once and returns a promise,
    named by the position of the request in the log. *)
Definition fetch (u : string) (m : string) (h : list (string * string))
    (b : string) : JS nat :=
  fun w =>
    Normal (length (network w))
      (with_network
         (fun l => l ++ [{| url := u; method := m; headers := h; body := b |}]) w).

(** Suspension at [await promise] (or registration of a [.catch] reaction):
    the continuation waits for the promise to settle. *)
Definition suspend (promise : nat) (k : Continuation) : JS unit :=
  modify (with_pending (fun m => <[promise := k]> m)).

(** The value of [await promise] once the promise has settled. *)
Definition awaited (r : FetchResult) : JS Response :=
  match r with
  | Fulfilled res => ret res
  | NetworkError e => throw e
  end.

Definition alert (msg : string) : JS unit :=
  modify (with_alerts (fun l => l ++ [msg])).

Definition set_location_href (href : string) : JS unit :=
  modify (with_location_href (fun l => l ++ [href])).

Definition form_reset : JS unit := modify (with_form_resets S).

(** [new FormData(form).get(field) || ""], stringified. *)
Definition form_field (fd : gmap string string) (field : string) : string :=
  default EmptyString (fd !! field).

(** [DOMTokenList.add] and [DOMTokenList.remove]: the class list is an
    ordered set of tokens. *)
Definition classList_add (token : string) (cl : list string) : list string :=
  if bool_decide (token ∈ cl) then cl else cl ++ [token].

Definition classList_remove (token : string) (cl : list string) : list string :=
  filter (fun t => t ≠ token) cl.

Definition scrollIntoView (elementId : string) : JS unit :=
  modify (with_scrolled (fun l => l ++ [elementId])).

Definition setTimeout (cb : TimerCallback) (delay : N) : JS unit :=
  fun w =>
    Normal tt
      (with_timers (fun l => l ++ [{| due := clock w + delay; callback := cb |}]) w).

Definition run_callback (cb : TimerCallback) (w : World) : World :=
  match cb with
  | RemoveHighlight elementId =>
      with_document (alter (classList_remove "cc-highlight") elementId) w
  end.

(** ** The handlers of the component *)

Definition notify_url : string := "/api/notify".
Definition json_headers : list (string * string) :=
  [("Content-Type", "application/json")].

(** [jumpAndHighlight], lines 89-96. *)
Definition jumpAndHighlight (elementId : string) : JS unit :=
  fun w =>
    match document w !! elementId with
    | None => Normal tt w
    | Some _ =>
        (scrollIntoView elementId ;;
         modify (with_document (alter (classList_add "cc-highlight") elementId)) ;;
         setTimeout (RemoveHighlight elementId) 1000%N) w
    end.

(** [handleFakeDoor], lines 98-128, up to its [await].  Nothing before the
    [await] can throw: the [try] block is entered, the request is issued and
    the handler suspends. *)
Definition handleFakeDoor (p : Product) (now : Z) : JS unit :=
  setClickedProduct (Some p) ;;
  setOpen true ;;
  setSubmitting true ;;
  setSubmitMsg None ;;
  promise <- fetch notify_url "POST" json_headers
    (JSON_stringify (JObject [
       ("product", id p);
       ("email", "info@coffeecore.it");
       ("ts", toISOString now)])) ;;
  suspend promise AfterFakeDoorFetch.

(** The rest of the [try] block of [handleFakeDoor], from the value of the
    [await] on. *)
Definition handleFakeDoor_try (r : FetchResult) : JS unit :=
  res <- awaited r ;;
  if ok res then
    setSubmitMsg
      (Some "Grazie! Abbiamo registrato il tuo interesse e avvisato l'amministratore.")
  else
    (setSubmitMsg None ;;
     throw (Error "notify failed")).

(** The rest of [handleFakeDoor]: the end of the [try] block under its
    [catch] and [finally]. *)
Definition handleFakeDoor_resume (r : FetchResult) : JS unit :=
  try_finally
    (try_catch (handleFakeDoor_try r) (fun e => setSubmitMsg None))
    (setSubmitting false).

(** The [onSubmit] of the form in the modal, lines 368-395, up to its
    [await]; [clickedProduct] is the product of the render the form belongs
    to. *)
Definition modalOnSubmit (clickedProduct : Product)
    (fd : gmap string string) (now : Z) : JS unit :=
  let email := form_field fd "email" in
  setSubmitting true ;;
  setSubmitMsg None ;;
  promise <- fetch notify_url "POST" json_headers
    (JSON_stringify (JObject [
       ("product", id clickedProduct);
       ("email", email);
       ("ts", toISOString now)])) ;;
  suspend promise (AfterModalFetch clickedProduct).

Definition modalOnSubmit_try (r : FetchResult) : JS unit :=
  res <- awaited r ;;
  if ok res then
    setSubmitMsg (Some "Perfetto! Ti avviseremo appena disponibile.")
  else
    (setSubmitMsg None ;;
     throw (Error "fail")).

Definition modalOnSubmit_resume (clickedProduct : Product)
    (r : FetchResult) : JS unit :=
  try_finally
    (try_catch (modalOnSubmit_try r)
       (fun err =>
          setSubmitMsg None ;;
          let subject := encodeURIComponent ("Interesse: " +:+ name clickedProduct) in
          let body :=
            encodeURIComponent
              "Vorrei saperne di più su questo prodotto quando sarà pronto." in
          set_location_href
            ("mailto:admin@coffeecore.example?subject=" +:+ subject
             +:+ "&body=" +:+ body)))
    (setSubmitting false).

(** The [onSubmit] of the contact form, lines 302-315.  It is not [async]:
    the promise is given a [.catch] reaction and the handler goes on. *)
Definition contactOnSubmit (fd : gmap string string) (now : Z) : JS unit :=
  let name := form_field fd "name" in
  let email := form_field fd "email" in
  let msg := form_field fd "message" in
  promise <- fetch notify_url "POST" json_headers
    (JSON_stringify (JObject [
       ("product", "contact");
       ("email", email);
       ("name", name);
       ("msg", msg);
       ("ts", toISOString now)])) ;;
  suspend promise AfterContactFetch ;;
  form_reset ;;
  alert "Grazie! Ti ricontatteremo al più presto.".

(** [.catch(() => {})]: a fulfilled promise passes through, a rejection is
    handled by a reaction that does nothing. *)
Definition contactOnSubmit_resume (r : FetchResult) : JS unit :=
  match r with
  | Fulfilled _ => ret tt
  | NetworkError _ => ret tt
  end.

Definition resume (k : Continuation) (r : FetchResult) : JS unit :=
  match k with
  | AfterFakeDoorFetch => handleFakeDoor_resume r
  | AfterModalFetch p => modalOnSubmit_resume p r
  | AfterContactFetch => contactOnSubmit_resume r
  end.

(** ** The event loop *)

(** What can happen to the page.  The clicks and submissions are those of
    the controls the component renders; [now] is the reading of the clock
    by [new Date()] in the handler. *)
Inductive Event : Type :=
  | ClickProduct (i : nat) (now : Z)
  | ClickModalClose
  | SubmitModalForm (fd : gmap string string) (now : Z)
  | SubmitContactForm (fd : gmap string string) (now : Z)
  | ClickScrivici
  | FetchSettles (promise : nat) (r : FetchResult)
  | TimePasses (dt : N).

(** A handler run from the event loop: an exception that escapes it is
    uncaught (an unhandled rejection for an [async] handler). *)
Definition dispatch (h : JS unit) (w : World) : World :=
  match h w with
  | Normal _ w' => w'
  | Throw e w' => with_uncaught (fun l => l ++ [e]) w'
  end.

Definition is_due (now : N) (t : Timer) : bool := (due t <=? now)%N.

(** The timers that are due run in the order they were set, and are gone. *)
Definition fire_timers (w : World) : World :=
  let ready := filter (fun t => is_due (clock w) t = true) (timers w) in
  let later := filter (fun t => is_due (clock w) t = false) (timers w) in
  foldl (fun w' t => run_callback (callback t) w') (with_timers (fun _ => later) w) ready.

Definition step (w : World) (ev : Event) : World :=
  match ev with
  | ClickProduct i now =>
      (* one "Scopri di più" button per product of the catalog *)
      match products !! i with
      | Some p => dispatch (handleFakeDoor p now) w
      | None => w
      end
  | ClickModalClose =>
      match modal_rendered (ui w) with
      | Some _ => dispatch (setOpen false) w
      | None => w
      end
  | SubmitModalForm fd now =>
      (* the only submit button of the form is [disabled={submitting}], and
         a form whose submit button is disabled is not submitted *)
      match modal_rendered (ui w) with
      | Some p =>
          if submitting (ui w) then w
          else dispatch (modalOnSubmit p fd now) w
      | None => w
      end
  | SubmitContactForm fd now => dispatch (contactOnSubmit fd now) w
  | ClickScrivici => dispatch (jumpAndHighlight "contatti") w
  | FetchSettles promise r =>
      match pending w !! promise with
      | Some k => dispatch (resume k r) (with_pending (delete promise) w)
      | None => w
      end
  | TimePasses dt => fire_timers (with_clock (fun c => (c + dt)%N) w)
  end.

Definition run (w : World) (evs : list Event) : World := foldl step w evs.

(** The page as first rendered: modal closed, nothing in flight, the five
    sections that carry an id with the classes of their [className]. *)
Definition initial_document : gmap string (list string) :=
  {[ "mission" := ["scroll-mt-20"; "mx-auto"; "max-w-7xl"; "px-4"; "sm:px-6";
                   "lg:px-8"; "py-12"; "sm:py-16"];
     "process" := ["scroll-mt-20"; "bg-white/70"; "border-y"; "border-black/5"];
     "prodotti" := ["scroll-mt-20"; "mx-auto"; "max-w-7xl"; "px-4"; "sm:px-6";
                    "lg:px-8"; "py-16"];
     "cta" := ["bg-[#455D51]"];
     "contatti" := ["scroll-mt-20"; "mx-auto"; "max-w-7xl"; "px-4"; "sm:px-6";
                    "lg:px-8"; "py-16"] ]}.

Definition initial : World :=
  {| ui := {| open := false; clickedProduct := None;
              submitting := false; submitMsg := None |};
     network := []; pending := ∅; alerts := []; location_href := [];
     form_resets := 0%nat; document := initial_document; scrolled := [];
     clock := 0%N; timers := []; uncaught := [] |}.

(** ** The notions of the specification, read off the component *)

(** The modal state is the pair of cells [open] and [clickedProduct]. *)
Record ModalState : Type := {
  isOpen : bool;
  targetProduct : option Product;
}.

Definition modalState (c : Component) : ModalState :=
  {| isOpen := open c; targetProduct := clickedProduct c |}.

Definition modal_invariant (m : ModalState) : Prop :=
  isOpen m = true → targetProduct m ≠ None.

(** The three outcomes of a submission name the three ways through the
    [try] block of a handler: the response is [ok], the response is not
    [ok] (the handler throws its own error), or [fetch] itself rejects. *)
Inductive Outcome : Type := Delivered | Rejected | TransportFailed.

Definition outcome_of (r : FetchResult) : Outcome :=
  match r with
  | Fulfilled res => if ok res then Delivered else Rejected
  | NetworkError _ => TransportFailed
  end.

Definition is_failure (r : FetchResult) : bool :=
  match outcome_of r with
  | Delivered => false
  | Rejected | TransportFailed => true
  end.

(** The three ways through a [try] block: it completes, it throws the
    error of the handler, or it throws what [fetch] rejected with. *)
Definition try_block_outcome (own : JsError) (r : FetchResult)
    (c : Completion unit) : Prop :=
  match outcome_of r with
  | Delivered => ∃ w', c = Normal tt w'
  | Rejected => ∃ w', c = Throw own w'
  | TransportFailed => ∃ reason w', r = NetworkError reason ∧ c = Throw reason w'
  end.

(** The component has no cell for the state of a submission: it is in
    flight while [submitting] holds, confirmed while a message is set, and
    at rest otherwise.  At rest, what tells a degraded submission from an
    idle one is the navigation to the [mailto:] link. *)
Definition at_rest (c : Component) : Prop :=
  submitting c = false ∧ submitMsg c = None.

Definition in_flight (w : World) : nat := size (pending w).

(** A manual contact action and the [mailto:] link that carries it. *)
Record ManualContactAction : Type := {
  address : string;
  subject : string;
  text : string;
}.

Definition admin_contact : string := "admin@coffeecore.example".

(** [s] split at the first [sep]. *)
Fixpoint split_at (sep : ascii) (s : string) : string * option string :=
  match s with
  | EmptyString => (EmptyString, None)
  | String c rest =>
      if bool_decide (c = sep) then (EmptyString, Some rest)
      else let '(before, after) := split_at sep rest in (String c before, after)
  end.

Fixpoint has_char (sep : ascii) (s : string) : bool :=
  match s with
  | EmptyString => false
  | String c rest => bool_decide (c = sep) || has_char sep rest
  end.

Fixpoint strip_prefix (p s : string) : option string :=
  match p, s with
  | EmptyString, _ => Some s
  | String a p', String b s' => if bool_decide (a = b) then strip_prefix p' s' else None
  | String _ _, EmptyString => None
  end.

(** Reading a link [mailto:ADDRESS?subject=S&body=B] back, the way the mail
    handler of the platform does: the two fields are percent-decoded. *)
Definition parse_mailto (href : string) : option ManualContactAction :=
  rest ← strip_prefix "mailto:" href;
  let '(addr, query) := split_at "?" rest in
  query ← query;
  query ← strip_prefix "subject=" query;
  let '(subj, more) := split_at "&" query in
  more ← more;
  more ← strip_prefix "body=" more;
  subj ← percent_decode subj;
  txt ← percent_decode more;
  Some {| address := addr; subject := subj; text := txt |}.

(** [needle] occurs in [s]. *)
Definition contains (needle s : string) : Prop :=
  ∃ before after, s = before +:+ needle +:+ after.

(** The notification request with a given JSON object as body. *)
Definition notify_request (fields : list (string * string)) : Request :=
  {| url := notify_url; method := "POST"; headers := json_headers;
     body := JSON_stringify (JObject fields) |}.

(** The two shapes of body the specification lists: interest in a product,
    and a general inquiry under the sentinel product [contact] with the two
    further fields [name] and [msg]. *)
Inductive notification_request : Request → Prop :=
  | product_interest (p : Product) (email : string) (now : Z) :
      p ∈ products →
      notification_request
        (notify_request
           [("product", id p); ("email", email); ("ts", toISOString now)])
  | general_inquiry (email nm msg : string) (now : Z) :
      notification_request
        (notify_request
           [("product", "contact"); ("email", email); ("name", nm);
            ("msg", msg); ("ts", toISOString now)]).

(** Whether an event, in a given world, is a submission that reaches a
    handler. *)
Definition submits (w : World) (ev : Event) : bool :=
  match ev with
  | ClickProduct i _ => bool_decide (is_Some (products !! i))
  | SubmitModalForm _ _ =>
      bool_decide (is_Some (modal_rendered (ui w))) && negb (submitting (ui w))
  | SubmitContactForm _ _ => true
  | _ => false
  end.

(** The class list of an element, empty when there is no such element. *)
Definition classList (w : World) (elementId : string) : list string :=
  default [] (document w !! elementId).

Definition highlighted (w : World) (elementId : string) : bool :=
  bool_decide ("cc-highlight" ∈ classList w elementId).

Definition thanks_contact : string := "Grazie! Ti ricontatteremo al più presto.".

(** The text of the fallback message of the modal form, and the link its
    [catch] branch assigns to [window.location.href] (lines 389-391). *)
Definition fallback_text : string :=
  "Vorrei saperne di più su questo prodotto quando sarà pronto.".

Definition fallback_link (p : Product) : string :=
  "mailto:admin@coffeecore.example?subject="
  +:+ encodeURIComponent ("Interesse: " +:+ name p)
  +:+ "&body=" +:+ encodeURIComponent fallback_text.

(** Two worlds that differ at most in the document and the timers. *)
Definition same_but_document_and_timers (w w' : World) : Prop :=
  ui w' = ui w ∧ network w' = network w ∧ pending w' = pending w
  ∧ alerts w' = alerts w ∧ location_href w' = location_href w
  ∧ form_resets w' = form_resets w ∧ scrolled w' = scrolled w
  ∧ clock w' = clock w ∧ uncaught w' = uncaught w.

(** Brings a world built by the setters to one record. *)
Ltac flatten_world :=
  unfold with_ui, with_network, with_pending, with_alerts, with_location_href,
    with_form_resets, with_document, with_scrolled, with_clock, with_timers,
    with_uncaught;
  cbn [ui network pending alerts location_href form_resets document scrolled
       clock timers uncaught app].

(** ** Further notions: the sections and their timers *)

(** What the callbacks of a list of timers do to the document. *)
Definition remove_highlights (l : list Timer) (d : gmap string (list string))
    : gmap string (list string) :=
  foldl
    (fun d t =>
       match callback t with
       | RemoveHighlight elementId =>
           alter (classList_remove "cc-highlight") elementId d
       end)
    d l.

(** Two documents with the same elements, whose class lists differ at most
    in the highlight. *)
Definition same_sections (d d' : gmap string (list string)) : Prop :=
  ∀ elementId,
    classList_remove "cc-highlight" (default [] (d' !! elementId))
    = classList_remove "cc-highlight" (default [] (d !! elementId))
    ∧ (is_Some (d' !! elementId) ↔ is_Some (d !! elementId)).

(** Every pending timer is due later than now, and within the delay of
    [jumpAndHighlight]. *)
Definition timers_in_window (w : World) : Prop :=
  Forall (fun t => (clock w < due t ≤ clock w + 1000)%N) (timers w).

(** Every highlighted element has a pending timer that removes its
    highlight. *)
Definition highlight_has_timer (w : World) : Prop :=
  ∀ elementId,
    highlighted w elementId = true →
    RemoveHighlight elementId ∈ callback <$> timers w.

(** ** Further notions: the submissions over a whole session *)

Definition grazie : string :=
  "Grazie! Abbiamo registrato il tuo interesse e avvisato l'amministratore.".

Definition perfetto : string := "Perfetto! Ti avviseremo appena disponibile.".

(** Every promise in flight is that of a request of the log. *)
Definition pending_in_log (w : World) : Prop :=
  ∀ n, is_Some (pending w !! n) → (n < length (network w))%nat.

(** While [submitting] holds, the notification of a call-to-action or of
    the modal form is in flight. *)
Definition submitting_has_request (w : World) : Prop :=
  submitting (ui w) = true →
  ∃ n k, pending w !! n = Some k ∧ k ≠ AfterContactFetch.

(** The target product and the products captured by the continuations in
    flight are products of the catalog. *)
Definition catalog_only (w : World) : Prop :=
  (∀ p, clickedProduct (ui w) = Some p → p ∈ products)
  ∧ (∀ n p, pending w !! n = Some (AfterModalFetch p) → p ∈ products).

(** The number of submissions of the contact form among some events. *)
Fixpoint contact_submissions (evs : list Event) : nat :=
  match evs with
  | [] => 0%nat
  | SubmitContactForm _ _ :: rest => S (contact_submissions rest)
  | _ :: rest => contact_submissions rest
  end.

(** The modal state as the clicks on the products and on the close button
    alone would have it. *)
Definition modal_step (m : ModalState) (ev : Event) : ModalState :=
  match ev with
  | ClickProduct i _ =>
      match products !! i with
      | Some p => {| isOpen := true; targetProduct := Some p |}
      | None => m
      end
  | ClickModalClose => {| isOpen := false; targetProduct := targetProduct m |}
  | _ => m
  end.

(** ** Further notions: reading back what the page sends *)

Fixpoint string_forall (P : ascii → bool) (s : string) : bool :=
  match s with
  | EmptyString => true
  | String c rest => P c && string_forall P rest
  end.

(** The characters [encodeURIComponent] can produce. *)
Definition uri_safe (c : ascii) : bool :=
  uri_unreserved c || bool_decide (c = percent).

(** Reading the characters of a JSON string after its opening quote, up to
    the closing quote: the decoded string and what follows.  Raw control
    characters are refused, and so is an escape [\uXXXX] beyond ASCII, which
    would stand for more than one byte. *)
Fixpoint json_unescape (s : string) : option (string * string) :=
  match s with
  | EmptyString => None
  | String c rest =>
      if Ascii.eqb c dquote then Some (EmptyString, rest)
      else if Ascii.eqb c backslash then
        match rest with
        | String e rest' =>
            let continue (c' : ascii) (s' : string) :=
              match json_unescape s' with
              | Some (a, b) => Some (String c' a, b)
              | None => None
              end in
            if Ascii.eqb e dquote then continue dquote rest'
            else if Ascii.eqb e backslash then continue backslash rest'
            else if Ascii.eqb e "/" then continue "/"%char rest'
            else if Ascii.eqb e "b" then continue (chr 8) rest'
            else if Ascii.eqb e "f" then continue (chr 12) rest'
            else if Ascii.eqb e "n" then continue (chr 10) rest'
            else if Ascii.eqb e "r" then continue (chr 13) rest'
            else if Ascii.eqb e "t" then continue (chr 9) rest'
            else if Ascii.eqb e "u" then
              match rest' with
              | String h1 (String h2 (String h3 (String h4 rest''))) =>
                  match hex_value h1, hex_value h2, hex_value h3, hex_value h4 with
                  | Some a, Some b, Some c3, Some d =>
                      let n := 4096 * a + 256 * b + 16 * c3 + d in
                      if n <? 128 then continue (chr n) rest'' else None
                  | _, _, _, _ => None
                  end
              | _ => None
              end
            else None
        | EmptyString => None
        end
      else if code c <? 32 then None
      else
        match json_unescape rest with
        | Some (a, b) => Some (String c a, b)
        | None => None
        end
  end.

Definition json_read_string (s : string) : option (string * string) :=
  match s with
  | String c rest => if Ascii.eqb c dquote then json_unescape rest else None
  | EmptyString => None
  end.

(** The members of an object whose values are strings, up to the closing
    brace; [fuel] bounds their number. *)
Fixpoint json_read_members (fuel : nat) (s : string)
    : option (list (string * string) * string) :=
  match fuel with
  | O => None
  | S fuel' =>
      match json_read_string s with
      | Some (k, String colon s1) =>
          if Ascii.eqb colon ":" then
            match json_read_string s1 with
            | Some (v, String sep s2) =>
                if Ascii.eqb sep "}" then Some ([(k, v)], s2)
                else if Ascii.eqb sep "," then
                  match json_read_members fuel' s2 with
                  | Some (more, s3) => Some ((k, v) :: more, s3)
                  | None => None
                  end
                else None
            | _ => None
            end
          else None
      | _ => None
      end
  end.

(** [JSON.parse] on the text of an object whose values are strings. *)
Definition JSON_parse_object (s : string) : option (list (string * string)) :=
  match s with
  | String open_brace rest =>
      if Ascii.eqb open_brace "{" then
        if String.eqb rest "}" then Some []
        else
          match json_read_members (String.length rest) rest with
          | Some (fields, EmptyString) => Some fields
          | _ => None
          end
      else None
  | EmptyString => None
  end.

(** ** Further notions: reading an instant back *)

(** The day number of a date of the proleptic Gregorian calendar, the
    other way round from [civil_from_days]. *)
Definition days_from_civil (y m d : Z) : Z :=
  let y' := if m <=? 2 then y - 1 else y in
  let era := y' / 400 in
  let yoe := y' - era * 400 in
  let mp := if 2 <? m then m - 3 else m + 9 in
  let doy := (153 * mp + 2) / 5 + d - 1 in
  let doe := yoe * 365 + yoe / 4 - yoe / 100 + doy in
  era * 146097 + doe - 719468.

Definition digit_value (c : ascii) : option Z :=
  if is_digit c then Some (code c - 48) else None.

(** Reads [n] decimal digits. *)
Fixpoint read_number (n : nat) (acc : Z) (s : string) : option (Z * string) :=
  match n with
  | O => Some (acc, s)
  | S n' =>
      match s with
      | String c rest =>
          match digit_value c with
          | Some v => read_number n' (10 * acc + v) rest
          | None => None
          end
      | EmptyString => None
      end
  end.

Definition read_char (c : ascii) (s : string) : option string :=
  match s with
  | String c' rest => if Ascii.eqb c' c then Some rest else None
  | EmptyString => None
  end.

(** Reads [-MM-DDTHH:mm:ss.sssZ] to the end of the text. *)
Definition read_time_tail (s : string) : option (Z * Z * Z * Z * Z * Z) :=
  s ← read_char "-" s;
  '(m, s) ← read_number 2 0 s;
  s ← read_char "-" s;
  '(d, s) ← read_number 2 0 s;
  s ← read_char "T" s;
  '(h, s) ← read_number 2 0 s;
  s ← read_char ":" s;
  '(mi, s) ← read_number 2 0 s;
  s ← read_char ":" s;
  '(sec, s) ← read_number 2 0 s;
  s ← read_char "." s;
  '(ms, s) ← read_number 3 0 s;
  s ← read_char "Z" s;
  if String.eqb s EmptyString then Some (m, d, h, mi, sec, ms) else None.

Definition read_year (s : string) : option (Z * string) :=
  match s with
  | String c r =>
      if Ascii.eqb c "+" then read_number 6 0 r
      else if Ascii.eqb c "-" then
        match read_number 6 0 r with
        | Some (y, r') => Some (- y, r')
        | None => None
        end
      else read_number 4 0 s
  | EmptyString => None
  end.

(** [Date.parse] on an instant in the format of [toISOString]: the number
    of milliseconds since the epoch. *)
Definition Date_parse (s : string) : option Z :=
  '(y, rest) ← read_year s;
  '(m, d, h, mi, sec, ms) ← read_time_tail rest;
  if (1 <=? m) && (m <=? 12) && (1 <=? d) && (d <=? 31)
     && (h <? 24) && (mi <? 60) && (sec <? 60)
  then Some (days_from_civil y m d * msPerDay
             + h * 3600000 + mi * 60000 + sec * 1000 + ms)
  else None.

(** * Properties *)

(** ** Platform functions *)

Lemma is_digit_digit (n : Z) : is_digit (digit n) = true.
Proof.
  unfold digit.
  assert (H : 0 <= n mod 10 < 10) by (apply Z.mod_pos_bound; lia).
  assert (C : n mod 10 = 0 ∨ n mod 10 = 1 ∨ n mod 10 = 2 ∨ n mod 10 = 3
            ∨ n mod 10 = 4 ∨ n mod 10 = 5 ∨ n mod 10 = 6 ∨ n mod 10 = 7
            ∨ n mod 10 = 8 ∨ n mod 10 = 9) by lia.
  clear H.
  repeat (destruct C as [C | C]; [rewrite C; reflexivity |]).
  rewrite C; reflexivity.
Qed.

Lemma has_shape_app (sh1 sh2 : list Slot) (s1 s2 : string) :
  has_shape sh1 s1 = true → has_shape sh2 s2 = true →
  has_shape (sh1 ++ sh2) (s1 +:+ s2) = true.
Proof.
  revert s1. induction sh1 as [| slot sh1 IH]; intros s1 H1 H2.
  - destruct s1; [exact H2 | discriminate].
  - destruct s1 as [| c s1]; [destruct slot; discriminate |].
    destruct slot; simpl in *; apply andb_true_iff in H1 as [Hc H1];
      rewrite Hc; simpl; apply IH; assumption.
Qed.

Lemma has_shape_pad2 (n : Z) : has_shape [Digit; Digit] (pad2 n) = true.
Proof. unfold pad2. simpl. rewrite !is_digit_digit. reflexivity. Qed.

Lemma has_shape_pad3 (n : Z) : has_shape [Digit; Digit; Digit] (pad3 n) = true.
Proof. unfold pad3, pad2. simpl. rewrite !is_digit_digit. reflexivity. Qed.

Lemma has_shape_pad4 (n : Z) : has_shape (replicate 4 Digit) (pad4 n) = true.
Proof. unfold pad4, pad3, pad2. simpl. rewrite !is_digit_digit. reflexivity. Qed.

Lemma has_shape_pad6 (n : Z) : has_shape (replicate 6 Digit) (pad6 n) = true.
Proof. unfold pad6, pad4, pad3, pad2. simpl. rewrite !is_digit_digit. reflexivity. Qed.

Lemma has_shape_lit (c : ascii) : has_shape [Lit c] (String c EmptyString) = true.
Proof. simpl. rewrite bool_decide_eq_true_2; reflexivity. Qed.

(** What follows the year in [toISOString] has the shape [-MM-DDTHH:mm:ss.sssZ]. *)
Lemma has_shape_iso_tail (m d h mi s ms : Z) :
  has_shape iso_tail
    ("-" +:+ pad2 m +:+ "-" +:+ pad2 d +:+ "T" +:+ pad2 h +:+ ":" +:+ pad2 mi
     +:+ ":" +:+ pad2 s +:+ "." +:+ pad3 ms +:+ "Z") = true.
Proof.
  unfold iso_tail.
  repeat first
    [ apply (has_shape_app [Lit _] _ (String _ EmptyString)); [apply has_shape_lit |]
    | apply (has_shape_app [Digit; Digit] _ (pad2 _)); [apply has_shape_pad2 |]
    | apply (has_shape_app [Digit; Digit; Digit] _ (pad3 _)); [apply has_shape_pad3 |] ].
  reflexivity.
Qed.

(** Every clock reading prints as an ISO-8601 instant. *)
Lemma toISOString_iso8601 (t : Z) : is_iso8601 (toISOString t) = true.
Proof.
  unfold toISOString. destruct (civil_from_days (t / msPerDay)) as [[y m] d].
  set (tail := "-" +:+ pad2 m +:+ _).
  pose proof (has_shape_iso_tail m d (t mod msPerDay / 3600000)
                (t mod msPerDay / 60000 mod 60) (t mod msPerDay / 1000 mod 60)
                (t mod msPerDay mod 1000)) as Htail.
  fold tail in Htail.
  unfold is_iso8601, iso_year.
  destruct ((0 <=? y) && (y <=? 9999)).
  - rewrite (has_shape_app _ _ _ _ (has_shape_pad4 y) Htail). reflexivity.
  - destruct (y <? 0).
    + assert (H : has_shape (Lit "-"%char :: replicate 6 Digit ++ iso_tail)
                    (String "-" (pad6 (- y)) +:+ tail) = true)
        by exact (has_shape_app [Lit "-"%char] _ (String "-" EmptyString) _
                    (has_shape_lit _)
                    (has_shape_app _ _ _ _ (has_shape_pad6 (- y)) Htail)).
      rewrite H. apply orb_true_r.
    + assert (H : has_shape (Lit "+"%char :: replicate 6 Digit ++ iso_tail)
                    (String "+" (pad6 y) +:+ tail) = true)
        by exact (has_shape_app [Lit "+"%char] _ (String "+" EmptyString) _
                    (has_shape_lit _)
                    (has_shape_app _ _ _ _ (has_shape_pad6 y) Htail)).
      rewrite H. rewrite orb_true_r. reflexivity.
Qed.

(** [encodeURIComponent] escapes one byte at a time, and percent-decoding
    undoes it. *)
Lemma percent_decode_encode_char (c : ascii) (rest : string) :
  percent_decode (encodeURIComponent (String c rest))
  = String c <$> percent_decode (encodeURIComponent rest).
Proof.
  destruct c as [[] [] [] [] [] [] [] []]; cbn [encodeURIComponent];
    match goal with
    | |- context [uri_unreserved ?a] =>
        let b := eval vm_compute in (uri_unreserved a) in
        change (uri_unreserved a) with b; cbv iota
    end;
    cbn [percent_decode];
    repeat match goal with
    | |- context [bool_decide (?a = percent)] =>
        let b := eval vm_compute in (bool_decide (a = percent)) in
        change (bool_decide (a = percent)) with b; cbv iota
    | |- context [hex_value ?a] =>
        let b := eval vm_compute in (hex_value a) in
        change (hex_value a) with b; cbv iota
    end;
    destruct (percent_decode (encodeURIComponent rest)); reflexivity.
Qed.

Lemma percent_decode_encode (s : string) :
  percent_decode (encodeURIComponent s) = Some s.
Proof.
  induction s as [| c s IH]; [reflexivity |].
  rewrite percent_decode_encode_char, IH. reflexivity.
Qed.

(** An escaped string holds no ampersand: a field of the query of a link
    ends where the next one starts. *)
Lemma has_char_amp_encode (s : string) :
  has_char "&" (encodeURIComponent s) = false.
Proof.
  induction s as [| c s IH]; [reflexivity |].
  destruct c as [[] [] [] [] [] [] [] []]; cbn [encodeURIComponent];
    match goal with
    | |- context [uri_unreserved ?a] =>
        let b := eval vm_compute in (uri_unreserved a) in
        change (uri_unreserved a) with b; cbv iota
    end;
    cbn [has_char];
    repeat match goal with
    | |- context [bool_decide (?a = ?b)] =>
        let v := eval vm_compute in (bool_decide (a = b)) in
        change (bool_decide (a = b)) with v; cbv iota
    end;
    exact IH.
Qed.

Lemma split_at_first (sep : ascii) (a rest : string) :
  has_char sep a = false →
  split_at sep (a +:+ String sep rest) = (a, Some rest).
Proof.
  induction a as [| c a IH]; intros H.
  - change (split_at sep (String sep rest) = (EmptyString, Some rest)).
    cbn [split_at]. rewrite bool_decide_eq_true_2; reflexivity.
  - change (split_at sep (String c (a +:+ String sep rest)) = (String c a, Some rest)).
    cbn [has_char] in H. cbn [split_at].
    destruct (bool_decide (c = sep)); [discriminate |].
    rewrite (IH H). reflexivity.
Qed.

Lemma strip_prefix_app (p s : string) : strip_prefix p (p +:+ s) = Some s.
Proof.
  induction p as [| c p IH]; [reflexivity |].
  change (strip_prefix (String c p) (String c (p +:+ s)) = Some s).
  cbn [strip_prefix]. rewrite bool_decide_eq_true_2; [exact IH | reflexivity].
Qed.

(** A link built the way the modal form builds it reads back as the action
    with that address, subject and text. *)
Lemma parse_mailto_link (addr subj txt : string) :
  has_char "?" addr = false →
  parse_mailto
    ("mailto:" +:+ addr +:+ "?subject=" +:+ encodeURIComponent subj
     +:+ "&body=" +:+ encodeURIComponent txt)
  = Some {| address := addr; subject := subj; text := txt |}.
Proof.
  intros Haddr. unfold parse_mailto.
  rewrite strip_prefix_app. cbn [mbind option_bind].
  change ("?subject=" +:+ ?x) with (String "?" ("subject=" +:+ x)).
  rewrite (split_at_first _ _ _ Haddr). cbn [mbind option_bind].
  rewrite strip_prefix_app. cbn [mbind option_bind].
  change ("&body=" +:+ ?x) with (String "&" ("body=" +:+ x)).
  rewrite (split_at_first _ _ _ (has_char_amp_encode subj)). cbn [mbind option_bind].
  rewrite strip_prefix_app. cbn [mbind option_bind].
  rewrite !percent_decode_encode. reflexivity.
Qed.

(** *** The platform functions on known values *)

Example toISOString_epoch : toISOString 0 = "1970-01-01T00:00:00.000Z".
Proof. reflexivity. Qed.

Example toISOString_before_epoch : toISOString (-1) = "1969-12-31T23:59:59.999Z".
Proof. reflexivity. Qed.

Example toISOString_leap_day : toISOString 951782400000 = "2000-02-29T00:00:00.000Z".
Proof. reflexivity. Qed.

Example toISOString_billion : toISOString 1000000000000 = "2001-09-09T01:46:40.000Z".
Proof. reflexivity. Qed.

Example toISOString_last_instant :
  toISOString 8640000000000000 = "+275760-09-13T00:00:00.000Z".
Proof. reflexivity. Qed.

Example encodeURIComponent_subject :
  encodeURIComponent "Interesse: Pellet da scarti di caffè"
  = "Interesse%3A%20Pellet%20da%20scarti%20di%20caff%C3%A8".
Proof. reflexivity. Qed.

Example JSON_stringify_escapes :
  JSON_stringify (JObject [("msg", String dquote (String backslash "a"))])
  = String "{" (String dquote ("msg" +:+ String dquote (String ":" (String dquote
      (String backslash (String dquote (String backslash (String backslash
         ("a" +:+ String dquote "}"))))))))).
Proof. reflexivity. Qed.

(** ** What each handler does to the world *)

Lemma handleFakeDoor_run (p : Product) (now : Z) (w : World) :
  handleFakeDoor p now w
  = Normal tt
      {| ui := {| open := true; clickedProduct := Some p;
                  submitting := true; submitMsg := None |};
         network := network w ++
           [notify_request [("product", id p); ("email", "info@coffeecore.it");
                            ("ts", toISOString now)]];
         pending := <[length (network w) := AfterFakeDoorFetch]> (pending w);
         alerts := alerts w; location_href := location_href w;
         form_resets := form_resets w; document := document w;
         scrolled := scrolled w; clock := clock w; timers := timers w;
         uncaught := uncaught w |}.
Proof. reflexivity. Qed.

Lemma modalOnSubmit_run (p : Product) (fd : gmap string string) (now : Z) (w : World) :
  modalOnSubmit p fd now w
  = Normal tt
      {| ui := {| open := open (ui w); clickedProduct := clickedProduct (ui w);
                  submitting := true; submitMsg := None |};
         network := network w ++
           [notify_request [("product", id p); ("email", form_field fd "email");
                            ("ts", toISOString now)]];
         pending := <[length (network w) := AfterModalFetch p]> (pending w);
         alerts := alerts w; location_href := location_href w;
         form_resets := form_resets w; document := document w;
         scrolled := scrolled w; clock := clock w; timers := timers w;
         uncaught := uncaught w |}.
Proof. reflexivity. Qed.

Lemma contactOnSubmit_run (fd : gmap string string) (now : Z) (w : World) :
  contactOnSubmit fd now w
  = Normal tt
      {| ui := ui w;
         network := network w ++
           [notify_request [("product", "contact"); ("email", form_field fd "email");
                            ("name", form_field fd "name");
                            ("msg", form_field fd "message");
                            ("ts", toISOString now)]];
         pending := <[length (network w) := AfterContactFetch]> (pending w);
         alerts := alerts w ++ [thanks_contact]; location_href := location_href w;
         form_resets := S (form_resets w); document := document w;
         scrolled := scrolled w; clock := clock w; timers := timers w;
         uncaught := uncaught w |}.
Proof. reflexivity. Qed.

Lemma mailto_literal (subj txt : string) :
  "mailto:admin@coffeecore.example?subject=" +:+ subj +:+ "&body=" +:+ txt
  = "mailto:" +:+ admin_contact +:+ "?subject=" +:+ subj +:+ "&body=" +:+ txt.
Proof. cbv [String.append admin_contact]. reflexivity. Qed.

(** What the continuation of the modal form does when the notification
    fails. *)
Lemma modalOnSubmit_resume_failure (p : Product) (r : FetchResult) (w : World) :
  is_failure r = true →
  modalOnSubmit_resume p r w
  = Normal tt
      {| ui := {| open := open (ui w); clickedProduct := clickedProduct (ui w);
                  submitting := false; submitMsg := None |};
         network := network w; pending := pending w; alerts := alerts w;
         location_href := location_href w ++ [fallback_link p];
         form_resets := form_resets w; document := document w;
         scrolled := scrolled w; clock := clock w; timers := timers w;
         uncaught := uncaught w |}.
Proof.
  intros Hr. unfold modalOnSubmit_resume, fallback_link, fallback_text.
  generalize (encodeURIComponent ("Interesse: " +:+ name p)).
  generalize (encodeURIComponent
                "Vorrei saperne di più su questo prodotto quando sarà pronto.").
  intros body subject.
  destruct r as [[[]] | e]; [discriminate | reflexivity | reflexivity].
Qed.

(** The link reads back as a message to the administrative contact about
    the product. *)
Lemma parse_fallback_link (p : Product) :
  parse_mailto (fallback_link p)
  = Some {| address := admin_contact;
            subject := "Interesse: " +:+ name p;
            text := fallback_text |}.
Proof.
  unfold fallback_link. rewrite mailto_literal.
  apply parse_mailto_link. reflexivity.
Qed.

Lemma modalOnSubmit_resume_delivered (p : Product) (r : FetchResult) (w : World) :
  is_failure r = false →
  modalOnSubmit_resume p r w
  = Normal tt
      (with_ui (fun c =>
         {| open := open c; clickedProduct := clickedProduct c; submitting := false;
            submitMsg := Some "Perfetto! Ti avviseremo appena disponibile." |}) w).
Proof. destruct r as [[[]] | e]; [reflexivity | discriminate | discriminate]. Qed.

Lemma handleFakeDoor_resume_failure (r : FetchResult) (w : World) :
  is_failure r = true →
  handleFakeDoor_resume r w
  = Normal tt
      (with_ui (fun c =>
         {| open := open c; clickedProduct := clickedProduct c;
            submitting := false; submitMsg := None |}) w).
Proof. destruct r as [[[]] | e]; [discriminate | reflexivity | reflexivity]. Qed.

Lemma handleFakeDoor_resume_delivered (r : FetchResult) (w : World) :
  is_failure r = false →
  handleFakeDoor_resume r w
  = Normal tt
      (with_ui (fun c =>
         {| open := open c; clickedProduct := clickedProduct c; submitting := false;
            submitMsg :=
              Some "Grazie! Abbiamo registrato il tuo interesse e avvisato l'amministratore." |}) w).
Proof. destruct r as [[[]] | e]; [reflexivity | discriminate | discriminate]. Qed.

Lemma contactOnSubmit_resume_run (r : FetchResult) (w : World) :
  contactOnSubmit_resume r w = Normal tt w.
Proof. destruct r; reflexivity. Qed.

(** Running timer callbacks touches the document and nothing else. *)
Lemma run_callbacks_frame (l : list Timer) (w : World) :
  same_but_document_and_timers w
    (foldl (fun w' t => run_callback (callback t) w') w l)
  ∧ timers (foldl (fun w' t => run_callback (callback t) w') w l) = timers w.
Proof.
  revert w. induction l as [| t l IH]; intros w.
  - cbn. unfold same_but_document_and_timers. tauto.
  - cbn [foldl]. specialize (IH (run_callback (callback t) w)).
    destruct (callback t). exact IH.
Qed.

Lemma fire_timers_frame (w : World) :
  same_but_document_and_timers w (fire_timers w).
Proof.
  unfold fire_timers.
  exact (proj1 (run_callbacks_frame _ (with_timers _ w))).
Qed.

Lemma jumpAndHighlight_frame (elementId : string) (w : World) :
  ∃ w', jumpAndHighlight elementId w = Normal tt w'
    ∧ ui w' = ui w ∧ network w' = network w ∧ pending w' = pending w
    ∧ alerts w' = alerts w ∧ location_href w' = location_href w
    ∧ uncaught w' = uncaught w.
Proof.
  unfold jumpAndHighlight. destruct (document w !! elementId).
  - eexists. split; [reflexivity |]. cbn. tauto.
  - eexists. split; [reflexivity |]. tauto.
Qed.

(** A continuation changes neither the modal state nor the network side of
    the world, and lets no exception out. *)
Lemma resume_frame (k : Continuation) (r : FetchResult) (w : World) :
  ∃ w', resume k r w = Normal tt w'
    ∧ modalState (ui w') = modalState (ui w)
    ∧ network w' = network w ∧ pending w' = pending w
    ∧ alerts w' = alerts w ∧ uncaught w' = uncaught w.
Proof.
  destruct k as [| p |]; cbn [resume].
  - destruct (is_failure r) eqn:E;
      [rewrite handleFakeDoor_resume_failure | rewrite handleFakeDoor_resume_delivered];
      try assumption; eexists; (split; [reflexivity |]); cbn; tauto.
  - destruct (is_failure r) eqn:E;
      [rewrite modalOnSubmit_resume_failure | rewrite modalOnSubmit_resume_delivered];
      try assumption; eexists; (split; [reflexivity |]); cbn; tauto.
  - rewrite contactOnSubmit_resume_run. eexists. split; [reflexivity |]. tauto.
Qed.

(** ** One step of the event loop, field by field *)

Lemma step_uncaught (w : World) (ev : Event) : uncaught (step w ev) = uncaught w.
Proof.
  destruct ev as [i now | | fd now | fd now | | promise r | dt]; cbn [step].
  - destruct (products !! i) as [p |]; [| reflexivity].
    unfold dispatch. rewrite handleFakeDoor_run. reflexivity.
  - destruct (modal_rendered (ui w)); reflexivity.
  - destruct (modal_rendered (ui w)) as [p |]; [| reflexivity].
    destruct (submitting (ui w)); [reflexivity |].
    unfold dispatch. rewrite modalOnSubmit_run. reflexivity.
  - unfold dispatch. rewrite contactOnSubmit_run. reflexivity.
  - unfold dispatch.
    destruct (jumpAndHighlight_frame "contatti" w) as (w' & -> & H). tauto.
  - destruct (pending w !! promise) as [k |]; [| reflexivity].
    unfold dispatch.
    destruct (resume_frame k r (with_pending (delete promise) w)) as (w' & -> & H).
    cbn in H. tauto.
  - destruct (fire_timers_frame (with_clock (fun c => (c + dt)%N) w))
      as (_ & _ & _ & _ & _ & _ & _ & _ & H).
    exact H.
Qed.

(** What a step can do to the modal state: leave it, open the modal on a
    product of the catalog, or close it and keep the product. *)
Lemma step_modalState (w : World) (ev : Event) :
  modalState (ui (step w ev)) = modalState (ui w)
  ∨ (∃ p, p ∈ products
       ∧ modalState (ui (step w ev)) = {| isOpen := true; targetProduct := Some p |})
  ∨ modalState (ui (step w ev))
    = {| isOpen := false; targetProduct := clickedProduct (ui w) |}.
Proof.
  destruct ev as [i now | | fd now | fd now | | promise r | dt]; cbn [step].
  - destruct (products !! i) as [p |] eqn:E; [| left; reflexivity].
    right; left. exists p. split; [eapply list_elem_of_lookup_2; exact E |].
    unfold dispatch. rewrite handleFakeDoor_run. reflexivity.
  - destruct (modal_rendered (ui w)); [| left; reflexivity].
    right; right. reflexivity.
  - left. destruct (modal_rendered (ui w)) as [p |]; [| reflexivity].
    destruct (submitting (ui w)); [reflexivity |].
    unfold dispatch. rewrite modalOnSubmit_run. reflexivity.
  - left. unfold dispatch. rewrite contactOnSubmit_run. reflexivity.
  - left. unfold dispatch.
    destruct (jumpAndHighlight_frame "contatti" w) as (w' & -> & H & _).
    rewrite H. reflexivity.
  - left. destruct (pending w !! promise) as [k |]; [| reflexivity].
    unfold dispatch.
    destruct (resume_frame k r (with_pending (delete promise) w)) as (w' & -> & H & _).
    exact H.
  - left.
    destruct (fire_timers_frame (with_clock (fun c => (c + dt)%N) w)) as (H & _).
    rewrite H. reflexivity.
Qed.

Lemma step_modal_invariant (w : World) (ev : Event) :
  modal_invariant (modalState (ui w)) → modal_invariant (modalState (ui (step w ev))).
Proof.
  intros Hinv.
  destruct (step_modalState w ev) as [-> | [(p & _ & ->) | ->]];
    [exact Hinv | intros _; discriminate | intros H; discriminate].
Qed.

Lemma run_snoc (w : World) (evs : list Event) (ev : Event) :
  run w (evs ++ [ev]) = step (run w evs) ev.
Proof. unfold run. rewrite foldl_app. reflexivity. Qed.

(** C6. The invariant of the modal state, [isOpen] implies a target
    product, holds on the page as first rendered, is preserved by every
    event (opening on a product, closing, the start and the settling of a
    submission, the highlight and its timers), and so holds after every
    sequence of events. *)
Theorem modal_invariant_holds :
  modal_invariant (modalState (ui initial))
  ∧ (∀ w ev, modal_invariant (modalState (ui w)) →
             modal_invariant (modalState (ui (step w ev))))
  ∧ (∀ evs, modal_invariant (modalState (ui (run initial evs)))).
Proof.
  split; [intros H; discriminate |].
  split; [exact step_modal_invariant |].
  intros evs. induction evs as [| ev evs IH] using rev_ind.
  - intros H; discriminate.
  - rewrite run_snoc. apply step_modal_invariant, IH.
Qed.

(** C7. On each of the three submission paths the handler runs to a normal
    completion up to its request.  The [try] block of the two [async]
    handlers has exactly three ways out, one per outcome: it completes
    ([Delivered]), it throws the handler's own error ([Rejected]), or it
    throws the rejection of [fetch] ([TransportFailed]); the [catch] takes
    both throws, so that the continuation completes normally for every way
    the promise can settle, with a confirmation exactly when the outcome is
    [Delivered] and [submitting] back to false in every case.  The reaction
    of the contact form completes normally as well.  No sequence of events
    ever leaves an exception uncaught. *)
Theorem submission_never_throws :
  (∀ p now w, ∃ w', handleFakeDoor p now w = Normal tt w')
  ∧ (∀ p fd now w, ∃ w', modalOnSubmit p fd now w = Normal tt w')
  ∧ (∀ fd now w, ∃ w', contactOnSubmit fd now w = Normal tt w')
  ∧ (∀ r w,
       try_block_outcome (Error "notify failed") r (handleFakeDoor_try r w)
       ∧ try_block_outcome (Error "fail") r (modalOnSubmit_try r w))
  ∧ (∀ k r w, ∃ w', resume k r w = Normal tt w'
        ∧ (k ≠ AfterContactFetch →
           submitting (ui w') = false
           ∧ (is_Some (submitMsg (ui w')) ↔ outcome_of r = Delivered)))
  ∧ (∀ w evs, uncaught (run w evs) = uncaught w).
Proof.
  split; [intros; rewrite handleFakeDoor_run; eauto |].
  split; [intros; rewrite modalOnSubmit_run; eauto |].
  split; [intros; rewrite contactOnSubmit_run; eauto |].
  split.
  { intros r w. unfold try_block_outcome.
    destruct r as [[[]] | e]; cbn [outcome_of ok]; split; eauto. }
  split.
  - intros k r w. destruct k as [| p |]; cbn [resume].
    + destruct (is_failure r) eqn:E.
      * rewrite handleFakeDoor_resume_failure by exact E.
        eexists; split; [reflexivity |]. intros _. split; [reflexivity |].
        cbn. split; [intros [? [=]] |].
        destruct r as [[[]] | e]; cbn; discriminate.
      * rewrite handleFakeDoor_resume_delivered by exact E.
        eexists; split; [reflexivity |]. intros _. split; [reflexivity |].
        cbn. split; [| eauto]. intros _.
        destruct r as [[[]] | e]; cbn in *; congruence.
    + destruct (is_failure r) eqn:E.
      * rewrite modalOnSubmit_resume_failure by exact E.
        eexists; split; [reflexivity |]. intros _. split; [reflexivity |].
        cbn. split; [intros [? [=]] |].
        destruct r as [[[]] | e]; cbn; discriminate.
      * rewrite modalOnSubmit_resume_delivered by exact E.
        eexists; split; [reflexivity |]. intros _. split; [reflexivity |].
        cbn. split; [| eauto]. intros _.
        destruct r as [[[]] | e]; cbn in *; congruence.
    + rewrite contactOnSubmit_resume_run. eexists; split; [reflexivity |].
      intros H; contradiction H; reflexivity.
  - intros w evs. revert w. induction evs as [| ev evs IH]; intros w; [reflexivity |].
    cbn [run foldl]. fold (run (step w ev) evs). rewrite IH. apply step_uncaught.
Qed.

(** The requests issued by one step: one for a submission that reaches its
    handler, none otherwise. *)
Lemma step_network (w : World) (ev : Event) :
  (∀ p, clickedProduct (ui w) = Some p → p ∈ products) →
  if submits w ev
  then ∃ r, notification_request r ∧ network (step w ev) = network w ++ [r]
  else network (step w ev) = network w.
Proof.
  intros Hcat.
  destruct ev as [i now | | fd now | fd now | | promise r | dt]; cbn [step submits].
  - destruct (products !! i) as [p |] eqn:E.
    + rewrite bool_decide_eq_true_2 by eauto.
      unfold dispatch. rewrite handleFakeDoor_run. eexists. split; [| reflexivity].
      apply product_interest. eapply list_elem_of_lookup_2; exact E.
    + rewrite bool_decide_eq_false_2 by (intros [? [=]]). reflexivity.
  - destruct (modal_rendered (ui w)); reflexivity.
  - destruct (modal_rendered (ui w)) as [p |] eqn:E.
    + rewrite bool_decide_eq_true_2 by eauto.
      destruct (submitting (ui w)); [reflexivity |]. cbn [andb negb].
      unfold dispatch. rewrite modalOnSubmit_run. eexists. split; [| reflexivity].
      apply product_interest. apply Hcat. unfold modal_rendered in E.
      destruct (open (ui w)); [exact E | discriminate].
    + rewrite bool_decide_eq_false_2 by (intros [? [=]]). reflexivity.
  - unfold dispatch. rewrite contactOnSubmit_run. eexists. split; [| reflexivity].
    apply general_inquiry.
  - unfold dispatch.
    destruct (jumpAndHighlight_frame "contatti" w) as (w' & -> & _ & H & _). exact H.
  - destruct (pending w !! promise) as [k |]; [| reflexivity].
    unfold dispatch.
    destruct (resume_frame k r (with_pending (delete promise) w))
      as (w' & -> & _ & H & _).
    exact H.
  - destruct (fire_timers_frame (with_clock (fun c => (c + dt)%N) w))
      as (_ & H & _).
    exact H.
Qed.

(** The target product, once set, is a product of the catalog. *)
Lemma step_target_in_catalog (w : World) (ev : Event) :
  (∀ p, clickedProduct (ui w) = Some p → p ∈ products) →
  ∀ p, clickedProduct (ui (step w ev)) = Some p → p ∈ products.
Proof.
  intros Hcat p.
  change (clickedProduct (ui (step w ev)))
    with (targetProduct (modalState (ui (step w ev)))).
  destruct (step_modalState w ev) as [-> | [(q & Hq & ->) | ->]]; cbn.
  - apply Hcat.
  - intros [= <-]. exact Hq.
  - apply Hcat.
Qed.

Lemma run_target_in_catalog (evs : list Event) :
  ∀ p, clickedProduct (ui (run initial evs)) = Some p → p ∈ products.
Proof.
  induction evs as [| ev evs IH] using rev_ind; [intros p [=] |].
  rewrite run_snoc. apply step_target_in_catalog, IH.
Qed.

(** C8. Every request the page ever issues is a POST to the notification
    endpoint whose body is the JSON text of an object with the fields
    [product] (the id of a product of the catalog), [email] and [ts], or
    with [product] set to the sentinel [contact] and the further fields
    [name] and [msg]; [ts] always has the shape of an ISO-8601 instant.  A
    submission that reaches its handler appends exactly one request to the
    log, and no other event (the settling of a promise among them) issues
    any: there is no retry. *)
Theorem notification_requests_single_post :
  (∀ evs, Forall notification_request (network (run initial evs)))
  ∧ (∀ now, is_iso8601 (toISOString now) = true)
  ∧ (∀ evs ev,
       let w := run initial evs in
       if submits w ev
       then ∃ r, notification_request r ∧ network (step w ev) = network w ++ [r]
       else network (step w ev) = network w)
  ∧ (∀ w promise r, network (step w (FetchSettles promise r)) = network w).
Proof.
  assert (Hstep : ∀ evs ev,
            if submits (run initial evs) ev
            then ∃ r, notification_request r
                   ∧ network (step (run initial evs) ev)
                     = network (run initial evs) ++ [r]
            else network (step (run initial evs) ev) = network (run initial evs)).
  { intros evs ev. apply step_network, run_target_in_catalog. }
  split; [| split; [exact toISOString_iso8601 | split; [exact Hstep |]]].
  - intros evs. induction evs as [| ev evs IH] using rev_ind; [constructor |].
    rewrite run_snoc. specialize (Hstep evs ev).
    destruct (submits (run initial evs) ev).
    + destruct Hstep as (r & Hr & ->). apply Forall_app. split; [exact IH |].
      constructor; [exact Hr | constructor].
    + rewrite Hstep. exact IH.
  - intros w promise r. cbn [step].
    destruct (pending w !! promise) as [k |]; [| reflexivity].
    unfold dispatch.
    destruct (resume_frame k r (with_pending (delete promise) w))
      as (w' & -> & _ & H & _).
    exact H.
Qed.

(** C10. A click on the call-to-action of a product of the catalog issues,
    in that very step and whatever the state of the page, one POST whose
    [email] field is the constant [info@coffeecore.it]; the click carries no
    input of the user, and the modal with its email field is only opened by
    the same step. *)
Theorem fake_door_click_posts_fixed_email (w : World) (i : nat) (p : Product) (now : Z) :
  products !! i = Some p →
  let w' := step w (ClickProduct i now) in
  network w' = network w ++
    [notify_request [("product", id p); ("email", "info@coffeecore.it");
                     ("ts", toISOString now)]]
  ∧ pending w' !! length (network w) = Some AfterFakeDoorFetch
  ∧ modal_rendered (ui w') = Some p.
Proof.
  intros Hp. cbn zeta. cbn [step]. rewrite Hp. unfold dispatch.
  rewrite handleFakeDoor_run. cbn [network pending ui].
  split; [reflexivity |]. split; [apply lookup_insert_eq | reflexivity].
Qed.

Lemma fake_door_click_posts_fixed_email_witness :
  let w' := step initial (ClickProduct 1 0) in
  network w' = network initial ++
    [notify_request [("product", "pellet"); ("email", "info@coffeecore.it");
                     ("ts", "1970-01-01T00:00:00.000Z")]]
  ∧ pending w' !! length (network initial) = Some AfterFakeDoorFetch
  ∧ option_map id (modal_rendered (ui w')) = Some "pellet".
Proof.
  pose proof (fake_door_click_posts_fixed_email initial 1 _ 0 eq_refl) as H.
  cbv zeta in H. destruct H as (H1 & H2 & H3).
  cbv zeta. rewrite H1, H2, H3. repeat split.
Defined.

(** ** The modal controller *)

(** C4, as the code has it.  A click on the call-to-action of a product
    sets the modal state to open on that product and clears the
    confirmation message, so that whatever message an earlier submission
    left is gone at that moment; it does not put the submission at rest but
    starts one: [submitting] is set and the click's own notification is in
    flight. *)
Theorem open_targets_product_and_submits (w : World) (i : nat) (p : Product) (now : Z) :
  products !! i = Some p →
  let w' := step w (ClickProduct i now) in
  modalState (ui w') = {| isOpen := true; targetProduct := Some p |}
  ∧ submitMsg (ui w') = None
  ∧ submitting (ui w') = true
  ∧ pending w' = <[length (network w) := AfterFakeDoorFetch]> (pending w).
Proof.
  intros Hp. cbn zeta. cbn [step]. rewrite Hp. unfold dispatch.
  rewrite handleFakeDoor_run. repeat split.
Qed.

Lemma open_targets_product_and_submits_witness :
  let w' := step initial (ClickProduct 2 0) in
  option_map id (targetProduct (modalState (ui w'))) = Some "bevande"
  ∧ submitting (ui w') = true.
Proof.
  pose proof (open_targets_product_and_submits initial 2 _ 0 eq_refl) as H.
  cbv zeta in H. destruct H as (H1 & _ & H3 & _).
  cbv zeta. rewrite H1, H3. split; reflexivity.
Defined.

(** C4 as stated fails.  After a click on a product the submission is not
    idle: it is in flight.  And the message of an earlier submission can
    appear under a later product: the modal form is submitted for the
    pellet, the modal is closed and reopened on the drinks, and the pellet's
    request then settles. *)
Lemma open_is_not_idle :
  let w := step initial (ClickProduct 1 0) in
  (submitting (ui w) = true ∧ in_flight w = 1%nat)
  ∧ let w' :=
      run initial
        [ClickProduct 1 0; FetchSettles 0 (Fulfilled {| ok := true |});
         SubmitModalForm {[ "email" := "a@b.com" ]} 0; ClickModalClose;
         ClickProduct 2 0; FetchSettles 1 (Fulfilled {| ok := true |})] in
    option_map id (modal_rendered (ui w')) = Some "bevande"
    ∧ submitMsg (ui w') = Some "Perfetto! Ti avviseremo appena disponibile.".
Proof. vm_compute. repeat split. Qed.

(** C5, as the code has it.  The close button of the modal sets [open] to
    false and nothing else: the modal is no longer rendered, the target
    product stays, and the submission state, the log of requests and the
    promises in flight are untouched, so a request in flight settles after
    the close as it would have before, and its continuation runs. *)
Theorem close_hides_modal_keeps_submission (w : World) (p : Product) :
  modal_rendered (ui w) = Some p →
  let w' := step w ClickModalClose in
  modalState (ui w') = {| isOpen := false; targetProduct := Some p |}
  ∧ modal_rendered (ui w') = None
  ∧ submitting (ui w') = submitting (ui w)
  ∧ submitMsg (ui w') = submitMsg (ui w)
  ∧ network w' = network w
  ∧ pending w' = pending w
  ∧ ∀ promise k r, pending w !! promise = Some k →
      step w' (FetchSettles promise r)
      = dispatch (resume k r) (with_pending (delete promise) w').
Proof.
  intros Hp. cbn zeta. cbn [step]. rewrite Hp.
  unfold modal_rendered in Hp. destruct (open (ui w)) eqn:Ho; [| discriminate].
  change (dispatch (setOpen false) w)
    with (with_ui (fun c =>
            {| open := false; clickedProduct := clickedProduct c;
               submitting := submitting c; submitMsg := submitMsg c |}) w).
  cbn. rewrite Hp. repeat split.
  intros promise k r Hk. rewrite Hk. reflexivity.
Qed.

Lemma close_hides_modal_keeps_submission_witness :
  let w := step initial (ClickProduct 1 0) in
  let w' := step w ClickModalClose in
  isOpen (modalState (ui w')) = false
  ∧ in_flight w' = 1%nat
  ∧ submitMsg (ui (step w' (FetchSettles 0 (Fulfilled {| ok := true |}))))
    = Some "Grazie! Abbiamo registrato il tuo interesse e avvisato l'amministratore.".
Proof.
  pose proof (close_hides_modal_keeps_submission
                (step initial (ClickProduct 1 0)) _ eq_refl) as H.
  cbv zeta in H. destruct H as (H1 & _ & _ & _ & _ & H6 & H7).
  cbv zeta. rewrite H1. unfold in_flight. rewrite H6.
  rewrite (H7 0%nat AfterFakeDoorFetch _ eq_refl).
  repeat split.
Defined.

(** C5 as stated fails on the target product: after a close it is still
    the product the modal was opened on, not none. *)
Lemma close_keeps_target_product :
  let w := run initial [ClickProduct 1 0; ClickModalClose] in
  isOpen (modalState (ui w)) = false
  ∧ option_map id (targetProduct (modalState (ui w))) = Some "pellet".
Proof. vm_compute. split; reflexivity. Qed.

(** ** One submission at a time *)

(** C3, as the code has it.  The guard is the [disabled={submitting}] of
    the submit button of the modal form: while [submitting] holds, a
    submission of that form does not reach its handler, the world is
    unchanged and no request is issued. *)
Theorem modal_submit_rejected_while_submitting
    (w : World) (fd : gmap string string) (now : Z) :
  submitting (ui w) = true →
  step w (SubmitModalForm fd now) = w
  ∧ submits w (SubmitModalForm fd now) = false.
Proof.
  intros Hs. cbn [step submits]. rewrite Hs.
  destruct (modal_rendered (ui w)); split; reflexivity.
Qed.

Lemma modal_submit_rejected_while_submitting_witness :
  let w := step initial (ClickProduct 1 0) in
  network (step w (SubmitModalForm {[ "email" := "a@b.com" ]} 0)) = network w.
Proof.
  cbv zeta.
  rewrite (proj1 (modal_submit_rejected_while_submitting
                    (step initial (ClickProduct 1 0)) {[ "email" := "a@b.com" ]} 0
                    eq_refl)).
  reflexivity.
Defined.

(** C3 as stated fails on the product call-to-action: [handleFakeDoor]
    does not look at [submitting].  With a submission in flight, closing the
    modal and clicking another product issues a second request while the
    first is still in flight. *)
Lemma second_request_while_submitting :
  let w := run initial [ClickProduct 0 0; ClickModalClose] in
  (submitting (ui w) = true ∧ in_flight w = 1%nat)
  ∧ let w' := step w (ClickProduct 1 0) in
    submitting (ui w') = true
    ∧ length (network w') = 2%nat
    ∧ in_flight w' = 2%nat.
Proof. vm_compute. repeat split. Qed.

(** ** Failure of the notification *)

(** A promise in flight stays in flight, under its continuation, until it
    settles: requests issued later are named by later positions of the
    log. *)
Lemma step_pending_other (w : World) (ev : Event) (n : nat) (k : Continuation) :
  pending w !! n = Some k →
  (n < length (network w))%nat →
  (∀ r, ev ≠ FetchSettles n r) →
  pending (step w ev) !! n = Some k ∧ (n < length (network (step w ev)))%nat.
Proof.
  intros Hk Hn Hev.
  destruct ev as [i now | | fd now | fd now | | promise r | dt]; cbn [step].
  - destruct (products !! i) as [p |]; [| tauto].
    unfold dispatch. rewrite handleFakeDoor_run. cbn [pending network].
    rewrite lookup_insert_ne by lia. rewrite length_app. cbn [length]. split; [exact Hk | lia].
  - destruct (modal_rendered (ui w)); tauto.
  - destruct (modal_rendered (ui w)) as [p |]; [| tauto].
    destruct (submitting (ui w)); [tauto |].
    unfold dispatch. rewrite modalOnSubmit_run. cbn [pending network].
    rewrite lookup_insert_ne by lia. rewrite length_app. cbn [length]. split; [exact Hk | lia].
  - unfold dispatch. rewrite contactOnSubmit_run. cbn [pending network].
    rewrite lookup_insert_ne by lia. rewrite length_app. cbn [length]. split; [exact Hk | lia].
  - unfold dispatch.
    destruct (jumpAndHighlight_frame "contatti" w) as (w' & -> & _ & H1 & H2 & _).
    rewrite H1, H2. tauto.
  - destruct (pending w !! promise) as [k' |] eqn:E; [| tauto].
    unfold dispatch.
    destruct (resume_frame k' r (with_pending (delete promise) w))
      as (w' & -> & _ & H1 & H2 & _).
    rewrite H1, H2. cbn [pending network with_pending].
    rewrite lookup_delete_ne; [tauto |].
    intros ->. exact (Hev r eq_refl).
  - destruct (fire_timers_frame (with_clock (fun c => (c + dt)%N) w))
      as (_ & H1 & H2 & _).
    rewrite H1, H2. tauto.
Qed.

Lemma run_pending_other (evs : list Event) (w : World) (n : nat) (k : Continuation) :
  pending w !! n = Some k →
  (n < length (network w))%nat →
  Forall (fun ev => ∀ r, ev ≠ FetchSettles n r) evs →
  pending (run w evs) !! n = Some k.
Proof.
  revert w. induction evs as [| ev evs IH]; intros w Hk Hn Hevs; [exact Hk |].
  apply Forall_cons in Hevs as [Hev Hevs].
  destruct (step_pending_other w ev n k Hk Hn Hev) as [Hk' Hn'].
  cbn [run foldl]. fold (run (step w ev) evs). apply IH; assumption.
Qed.

Lemma contains_suffix (a b : string) : contains b (a +:+ b).
Proof.
  exists a, EmptyString.
  assert (H : ∀ s : string, s +:+ EmptyString = s).
  { induction s as [| c s IHs]; [reflexivity |].
    change (String c (s +:+ EmptyString) = String c s). rewrite IHs. reflexivity. }
  rewrite H. reflexivity.
Qed.

(** What the settling of a failed notification of the modal form does. *)
Lemma modal_fetch_fails (w : World) (promise : nat) (p : Product) (r : FetchResult) :
  pending w !! promise = Some (AfterModalFetch p) →
  is_failure r = true →
  let w' := step w (FetchSettles promise r) in
  at_rest (ui w')
  ∧ modalState (ui w') = modalState (ui w)
  ∧ location_href w' = location_href w ++ [fallback_link p].
Proof.
  intros Hk Hr. cbn zeta. cbn [step]. rewrite Hk. unfold dispatch. cbn [resume].
  rewrite modalOnSubmit_resume_failure by exact Hr.
  split; [split; reflexivity |]. split; reflexivity.
Qed.

(** C2. A submission of the modal form, rendered for product [p] and not
    disabled, sets [submitting] and clears the message.  Whatever happens on
    the page in between, when its promise settles as [Rejected] or
    [TransportFailed] the submission comes to rest with the confirmation
    message absent, and the page navigates to one more link: the [mailto:]
    link of the [catch] branch, which reads back as a message whose address
    is the administrative contact and whose subject holds the display name
    of [p]. *)
Theorem modal_failure_degrades_to_mailto
    (w : World) (p : Product) (fd : gmap string string) (now : Z)
    (evs : list Event) (r : FetchResult) :
  modal_rendered (ui w) = Some p →
  submitting (ui w) = false →
  Forall (fun ev => ∀ r', ev ≠ FetchSettles (length (network w)) r') evs →
  is_failure r = true →
  let w1 := step w (SubmitModalForm fd now) in
  let w2 := run w1 evs in
  let w3 := step w2 (FetchSettles (length (network w)) r) in
  (submitting (ui w1) = true ∧ submitMsg (ui w1) = None)
  ∧ at_rest (ui w3)
  ∧ location_href w3 = location_href w2 ++ [fallback_link p]
  ∧ ∃ action,
      parse_mailto (fallback_link p) = Some action
      ∧ address action = admin_contact
      ∧ contains (name p) (subject action).
Proof.
  intros Hp Hs Hevs Hr. cbn zeta.
  assert (Hw1 : step w (SubmitModalForm fd now)
                = dispatch (modalOnSubmit p fd now) w).
  { cbn [step]. rewrite Hp, Hs. reflexivity. }
  rewrite Hw1. unfold dispatch at 1 2 3. rewrite modalOnSubmit_run.
  split; [split; reflexivity |].
  match goal with
  | |- context [run ?w1 evs] =>
      assert (Hk : pending (run w1 evs) !! length (network w)
                   = Some (AfterModalFetch p))
  end.
  { apply run_pending_other; [apply lookup_insert_eq | | exact Hevs].
    cbn [network]. rewrite length_app. cbn [length]. lia. }
  destruct (modal_fetch_fails _ _ _ _ Hk Hr) as (Hrest & _ & Hloc).
  split; [exact Hrest |]. split; [exact Hloc |].
  eexists. split; [apply parse_fallback_link |].
  split; [reflexivity |]. apply contains_suffix.
Qed.

Lemma modal_failure_degrades_to_mailto_witness :
  let w := run initial [ClickProduct 1 0; FetchSettles 0 (Fulfilled {| ok := true |})] in
  let w1 := step w (SubmitModalForm {[ "email" := "a@b.com" ]} 1000) in
  let w2 := run w1 [ClickScrivici; TimePasses 250] in
  let w3 := step w2 (FetchSettles 1 (NetworkError (TypeError "Failed to fetch"))) in
  at_rest (ui w3) ∧ length (location_href w3) = 1%nat.
Proof.
  pose proof (modal_failure_degrades_to_mailto
                (run initial [ClickProduct 1 0; FetchSettles 0 (Fulfilled {| ok := true |})])
                {| id := "pellet"; name := "Pellet da scarti di caffè";
                   status := futuro;
                   summary := "Combustibile sostenibile e tracciabile ottenuto dal residuo di lavorazione.";
                   tag := "R&D"; color := "bg-[#8E4A49]" |}
                {[ "email" := "a@b.com" ]} 1000
                [ClickScrivici; TimePasses 250]
                (NetworkError (TypeError "Failed to fetch"))
                eq_refl eq_refl) as H.
  cbv zeta in H.
  destruct H as (_ & Hrest & Hloc & _).
  - repeat constructor; discriminate.
  - reflexivity.
  - cbv zeta. split; [exact Hrest |].
    change (length (network (run initial
              [ClickProduct 1 0; FetchSettles 0 (Fulfilled {| ok := true |})])))
      with 1%nat in Hloc.
    rewrite Hloc. rewrite length_app. reflexivity.
Defined.

(** C1, as the code has it.  When a notification in flight settles as
    [Rejected] or [TransportFailed], no exception is left uncaught and no
    alert is raised.  On the modal form the submission comes to rest
    without a confirmation and the page navigates to the [mailto:] link of
    the manual contact; on the product call-to-action it comes to rest
    without a confirmation; on the contact form the failure is swallowed
    and nothing on the page changes.  The contact form has thanked the user
    already, at submission, whatever the outcome was going to be. *)
Theorem failure_absorbed_on_each_surface
    (w : World) (promise : nat) (k : Continuation) (r : FetchResult) :
  pending w !! promise = Some k →
  is_failure r = true →
  let w' := step w (FetchSettles promise r) in
  (uncaught w' = uncaught w ∧ alerts w' = alerts w)
  ∧ match k with
    | AfterFakeDoorFetch => at_rest (ui w')
    | AfterModalFetch p =>
        at_rest (ui w')
        ∧ location_href w' = location_href w ++ [fallback_link p]
        ∧ parse_mailto (fallback_link p)
          = Some {| address := admin_contact;
                    subject := "Interesse: " +:+ name p;
                    text := fallback_text |}
    | AfterContactFetch => ui w' = ui w ∧ location_href w' = location_href w
    end
  ∧ ∀ w0 fd now,
      alerts (step w0 (SubmitContactForm fd now)) = alerts w0 ++ [thanks_contact].
Proof.
  intros Hk Hr. cbn zeta.
  split; [| split].
  - rewrite step_uncaught. split; [reflexivity |].
    cbn [step]. rewrite Hk. unfold dispatch.
    destruct (resume_frame k r (with_pending (delete promise) w))
      as (w' & -> & _ & _ & _ & H & _).
    exact H.
  - destruct k as [| p |].
    + cbn [step]. rewrite Hk. unfold dispatch. cbn [resume].
      rewrite handleFakeDoor_resume_failure by exact Hr. split; reflexivity.
    + destruct (modal_fetch_fails w promise p r Hk Hr) as (H1 & _ & H2).
      split; [exact H1 |]. split; [exact H2 | apply parse_fallback_link].
    + cbn [step]. rewrite Hk. unfold dispatch. cbn [resume].
      rewrite contactOnSubmit_resume_run. split; reflexivity.
  - intros w0 fd now. cbn [step]. unfold dispatch. rewrite contactOnSubmit_run.
    reflexivity.
Qed.

Lemma failure_absorbed_on_each_surface_witness :
  let w := step initial (ClickProduct 1 0) in
  let w' := step w (FetchSettles 0 (Fulfilled {| ok := false |})) in
  uncaught w' = [] ∧ at_rest (ui w').
Proof.
  pose proof (failure_absorbed_on_each_surface
                (step initial (ClickProduct 1 0)) 0 AfterFakeDoorFetch
                (Fulfilled {| ok := false |}) eq_refl eq_refl) as H.
  cbv zeta in H. destruct H as ((H1 & _) & H2 & _).
  cbv zeta. split; [rewrite H1; reflexivity | exact H2].
Defined.

(** C1 as stated fails on the contact form: the notification fails, and
    the user has been shown the thanks of a success, no manual contact is
    offered, and nothing is left in flight to change that. *)
Lemma contact_failure_still_thanks :
  let w :=
    run initial
      [SubmitContactForm
         {[ "name" := "Ada"; "email" := "a@b.com"; "message" := "ciao" ]} 0;
       FetchSettles 0 (NetworkError (TypeError "Failed to fetch"))] in
  alerts w = [thanks_contact] ∧ location_href w = [] ∧ in_flight w = 0%nat.
Proof. vm_compute. repeat split. Qed.

(** ** The scroll-and-highlight helper *)

Lemma jumpAndHighlight_run (elementId : string) (cl : list string) (w : World) :
  document w !! elementId = Some cl →
  jumpAndHighlight elementId w
  = Normal tt
      {| ui := ui w; network := network w; pending := pending w;
         alerts := alerts w; location_href := location_href w;
         form_resets := form_resets w;
         document := alter (classList_add "cc-highlight") elementId (document w);
         scrolled := scrolled w ++ [elementId]; clock := clock w;
         timers := timers w ++
           [{| due := clock w + 1000; callback := RemoveHighlight elementId |}];
         uncaught := uncaught w |}.
Proof. intros H. unfold jumpAndHighlight. rewrite H. reflexivity. Qed.

Lemma classList_add_elem (token : string) (cl : list string) :
  token ∈ classList_add token cl.
Proof.
  unfold classList_add. case_bool_decide as H; [exact H |].
  apply elem_of_app. right. apply list_elem_of_singleton. reflexivity.
Qed.

Lemma classList_remove_not_elem (token : string) (cl : list string) :
  token ∉ classList_remove token cl.
Proof.
  unfold classList_remove. intros H. apply list_elem_of_filter in H as [H _].
  exact (H eq_refl).
Qed.

(** C9, as the code has it.  Each call of [jumpAndHighlight] on a section
    that is there sets a removal timer of its own, 1000 ms ahead, and never
    clears one.  Two calls [d] ms apart, with [0 < d < 1000], leave two
    timers; the highlight is on after the second call, and it is removed
    when the first timer fires, 1000 ms after the first call and so only
    [1000 - d] ms after the second, whose own timer is then still pending. *)
Theorem highlight_timers_stack
    (w : World) (elementId : string) (cl : list string) (d : N) :
  document w !! elementId = Some cl →
  timers w = [] →
  (0 < d < 1000)%N →
  let first := {| due := clock w + 1000; callback := RemoveHighlight elementId |} in
  let second := {| due := clock w + d + 1000; callback := RemoveHighlight elementId |} in
  let w1 := dispatch (jumpAndHighlight elementId) w in
  let w2 := dispatch (jumpAndHighlight elementId) (step w1 (TimePasses d)) in
  let w3 := step w2 (TimePasses (1000 - d)) in
  (timers w2 = [first; second] ∧ highlighted w2 elementId = true)
  ∧ (clock w2 = clock w + d ∧ clock w3 = clock w + d + (1000 - d))%N
  ∧ (highlighted w3 elementId = false ∧ timers w3 = [second]).
Proof.
  intros Hdoc Htim Hd first second w1 w2 w3.
  (* the first call *)
  eassert (H1 : w1 = _).
  { subst w1. unfold dispatch. rewrite (jumpAndHighlight_run _ cl _ Hdoc), Htim.
    reflexivity. }
  clearbody w1. subst w1.
  (* [d] ms later the first timer is not due; then the second call *)
  eassert (H2 : w2 = _).
  { subst w2. cbn [step]. unfold fire_timers. flatten_world.
    rewrite (filter_cons_False (fun t => is_due (clock w + d) t = true))
      by (unfold is_due; cbn [due]; rewrite not_true_iff_false; apply N.leb_gt; lia).
    rewrite (filter_cons_True (fun t => is_due (clock w + d) t = false))
      by (unfold is_due; cbn [due]; apply N.leb_gt; lia).
    rewrite !filter_nil. cbn [foldl]. unfold dispatch.
    erewrite jumpAndHighlight_run
      by (flatten_world; rewrite lookup_alter_eq, Hdoc; reflexivity).
    flatten_world. reflexivity. }
  clearbody w2. subst w2.
  (* 1000 ms after the first call its timer fires, the second is not due *)
  eassert (H3 : w3 = _).
  { subst w3. cbn [step]. unfold fire_timers. flatten_world.
    rewrite (filter_cons_True (fun t => is_due (clock w + d + (1000 - d)) t = true))
      by (unfold is_due; cbn [due]; apply N.leb_le; lia).
    rewrite (filter_cons_False (fun t => is_due (clock w + d + (1000 - d)) t = true))
      by (unfold is_due; cbn [due]; rewrite not_true_iff_false; apply N.leb_gt; lia).
    rewrite (filter_cons_False (fun t => is_due (clock w + d + (1000 - d)) t = false))
      by (unfold is_due; cbn [due]; rewrite not_false_iff_true; apply N.leb_le; lia).
    rewrite (filter_cons_True (fun t => is_due (clock w + d + (1000 - d)) t = false))
      by (unfold is_due; cbn [due]; apply N.leb_gt; lia).
    rewrite !filter_nil. cbn [foldl callback run_callback]. flatten_world.
    reflexivity. }
  clearbody w3. subst w3.
  unfold highlighted, classList. cbn [timers clock document].
  rewrite !lookup_alter_eq, Hdoc. cbn [fmap option_fmap option_map default].
  split; [split; [reflexivity |] |].
  { apply bool_decide_eq_true_2, classList_add_elem. }
  split; [split; reflexivity |].
  split; [| reflexivity].
  apply bool_decide_eq_false_2, classList_remove_not_elem.
Qed.

Lemma highlight_timers_stack_witness :
  let w2 := run initial [ClickScrivici; TimePasses 600; ClickScrivici] in
  let w3 := step w2 (TimePasses 400) in
  highlighted w2 "contatti" = true
  ∧ highlighted w3 "contatti" = false
  ∧ length (timers w3) = 1%nat.
Proof.
  pose proof (highlight_timers_stack initial "contatti" _ 600 eq_refl eq_refl) as H.
  cbv zeta in H. destruct H as ((_ & H1) & _ & H2 & H3); [split; reflexivity |].
  cbv zeta. split; [exact H1 |]. split; [exact H2 |].
  change (step (run initial [ClickScrivici; TimePasses 600; ClickScrivici])
            (TimePasses 400))
    with (step (dispatch (jumpAndHighlight "contatti")
                  (step (dispatch (jumpAndHighlight "contatti") initial)
                     (TimePasses 600)))
            (TimePasses (1000 - 600))).
  rewrite H3. reflexivity.
Defined.

(** C9 as stated fails.  The section is highlighted, highlighted again
    600 ms later, and 400 ms after that second call the highlight is gone:
    the timer of the first call has fired, while the timer of the second is
    still pending, due 600 ms later. *)
Lemma highlight_removed_early :
  let w2 := run initial [ClickScrivici; TimePasses 600; ClickScrivici] in
  let w3 := step w2 (TimePasses 400) in
  (clock w2 = 600%N ∧ highlighted w2 "contatti" = true
   ∧ map due (timers w2) = [1000%N; 1600%N])
  ∧ (clock w3 = 1000%N ∧ highlighted w3 "contatti" = false
     ∧ map due (timers w3) = [1600%N]).
Proof. vm_compute. repeat split. Qed.

(** ** The scenarios of the specification, run *)

(** Scenario 1: the modal form for the pellet is submitted and the
    notification is delivered. *)
Example scenario_delivered :
  let w :=
    run initial
      [ClickProduct 1 0; FetchSettles 0 (Fulfilled {| ok := true |});
       SubmitModalForm {[ "email" := "a@b.com" ]} 1000;
       FetchSettles 1 (Fulfilled {| ok := true |})] in
  submitting (ui w) = false
  ∧ submitMsg (ui w) = Some "Perfetto! Ti avviseremo appena disponibile."
  ∧ location_href w = [].
Proof. vm_compute. repeat split. Qed.

(** Scenario 2: the same submission, and the transport fails. *)
Example scenario_transport_failed :
  let w :=
    run initial
      [ClickProduct 1 0; FetchSettles 0 (Fulfilled {| ok := true |});
       SubmitModalForm {[ "email" := "a@b.com" ]} 1000;
       FetchSettles 1 (NetworkError (TypeError "Failed to fetch"))] in
  submitting (ui w) = false
  ∧ submitMsg (ui w) = None
  ∧ location_href w =
      ["mailto:admin@coffeecore.example?subject=Interesse%3A%20Pellet%20da%20scarti%20di%20caff%C3%A8&body=Vorrei%20saperne%20di%20pi%C3%B9%20su%20questo%20prodotto%20quando%20sar%C3%A0%20pronto."].
Proof. vm_compute. repeat split. Qed.

(** Scenario 4: there is no section under the id, and nothing happens. *)
Example scenario_no_such_section :
  dispatch (jumpAndHighlight "nonexistent") initial = initial.
Proof. reflexivity. Qed.

(** * Further properties *)

(** ** The sections, the highlight and its timers *)

Lemma document_run_callbacks (l : list Timer) (w : World) :
  document (foldl (fun w' t => run_callback (callback t) w') w l)
  = remove_highlights l (document w).
Proof.
  revert w. induction l as [| t l IH]; intros w; [reflexivity |].
  cbn [foldl]. rewrite IH. unfold remove_highlights at 2. cbn [foldl].
  destruct (callback t). reflexivity.
Qed.

(** The passing of time, field by field. *)
Lemma step_time_passes (w : World) (dt : N) :
  clock (step w (TimePasses dt)) = (clock w + dt)%N
  ∧ timers (step w (TimePasses dt))
    = filter (fun t => is_due (clock w + dt) t = false) (timers w)
  ∧ document (step w (TimePasses dt))
    = remove_highlights
        (filter (fun t => is_due (clock w + dt) t = true) (timers w))
        (document w).
Proof.
  cbn [step]. unfold fire_timers.
  match goal with
  | |- context [foldl ?f ?w0 ?l] =>
      destruct (run_callbacks_frame l w0) as ((_ & _ & _ & _ & _ & _ & _ & Hc & _) & Ht);
      pose proof (document_run_callbacks l w0) as Hd
  end.
  rewrite Hc, Ht, Hd. repeat split.
Qed.

(** A click on "Scrivici", field by field. *)
Lemma step_scrivici (w : World) :
  (document w !! "contatti" = None ∧ step w ClickScrivici = w)
  ∨ (∃ cl, document w !! "contatti" = Some cl
       ∧ document (step w ClickScrivici)
         = alter (classList_add "cc-highlight") "contatti" (document w)
       ∧ timers (step w ClickScrivici)
         = timers w ++
             [{| due := clock w + 1000; callback := RemoveHighlight "contatti" |}]
       ∧ clock (step w ClickScrivici) = clock w).
Proof.
  cbn [step]. unfold dispatch.
  destruct (document w !! "contatti") as [cl |] eqn:E.
  - right. exists cl. rewrite (jumpAndHighlight_run _ cl _ E). repeat split.
  - left. unfold jumpAndHighlight. rewrite E. split; reflexivity.
Qed.

Lemma resume_page (k : Continuation) (r : FetchResult) (w : World) :
  ∃ w', resume k r w = Normal tt w'
    ∧ document w' = document w ∧ timers w' = timers w ∧ clock w' = clock w
    ∧ scrolled w' = scrolled w ∧ form_resets w' = form_resets w.
Proof.
  destruct k as [| p |]; cbn [resume].
  - destruct (is_failure r) eqn:E;
      [rewrite handleFakeDoor_resume_failure | rewrite handleFakeDoor_resume_delivered];
      try assumption; eexists; (split; [reflexivity |]); cbn; tauto.
  - destruct (is_failure r) eqn:E;
      [rewrite modalOnSubmit_resume_failure | rewrite modalOnSubmit_resume_delivered];
      try assumption; eexists; (split; [reflexivity |]); cbn; tauto.
  - rewrite contactOnSubmit_resume_run. eexists. split; [reflexivity |]. tauto.
Qed.

(** The events of the submissions leave the document, the timers, the
    clock and the scroll position alone. *)
Lemma step_keeps_page (w : World) (ev : Event) :
  ev ≠ ClickScrivici → (∀ dt, ev ≠ TimePasses dt) →
  document (step w ev) = document w ∧ timers (step w ev) = timers w
  ∧ clock (step w ev) = clock w ∧ scrolled (step w ev) = scrolled w.
Proof.
  intros Hs Ht.
  destruct ev as [i now | | fd now | fd now | | promise r | dt]; cbn [step].
  - destruct (products !! i) as [p |]; [| tauto].
    unfold dispatch. rewrite handleFakeDoor_run. cbn. tauto.
  - destruct (modal_rendered (ui w)); cbn; tauto.
  - destruct (modal_rendered (ui w)) as [p |]; [| tauto].
    destruct (submitting (ui w)); [tauto |].
    unfold dispatch. rewrite modalOnSubmit_run. cbn. tauto.
  - unfold dispatch. rewrite contactOnSubmit_run. cbn. tauto.
  - contradiction Hs; reflexivity.
  - destruct (pending w !! promise) as [k |]; [| tauto].
    unfold dispatch.
    destruct (resume_page k r (with_pending (delete promise) w))
      as (w' & -> & H1 & H2 & H3 & H4 & _).
    rewrite H1, H2, H3, H4. cbn. tauto.
  - contradiction (Ht dt); reflexivity.
Qed.

Lemma classList_remove_add (cl : list string) :
  classList_remove "cc-highlight" (classList_add "cc-highlight" cl)
  = classList_remove "cc-highlight" cl.
Proof.
  unfold classList_add, classList_remove. case_bool_decide; [reflexivity |].
  rewrite filter_app.
  rewrite (filter_cons_False (fun t : string => t ≠ "cc-highlight"))
    by (intros H'; exact (H' eq_refl)).
  rewrite filter_nil. apply app_nil_r.
Qed.

Lemma classList_remove_remove (cl : list string) :
  classList_remove "cc-highlight" (classList_remove "cc-highlight" cl)
  = classList_remove "cc-highlight" cl.
Proof.
  unfold classList_remove. induction cl as [| c cl IH]; [reflexivity |].
  destruct (decide (c ≠ "cc-highlight")) as [Hc | Hc].
  - rewrite (filter_cons_True _ c cl Hc).
    rewrite (filter_cons_True _ c _ Hc). rewrite IH. reflexivity.
  - rewrite (filter_cons_False _ c cl Hc). exact IH.
Qed.

Lemma same_sections_refl (d : gmap string (list string)) : same_sections d d.
Proof. intros elementId. split; reflexivity. Qed.

Lemma same_sections_trans (d1 d2 d3 : gmap string (list string)) :
  same_sections d1 d2 → same_sections d2 d3 → same_sections d1 d3.
Proof.
  intros H12 H23 elementId.
  destruct (H12 elementId) as [E12 I12]. destruct (H23 elementId) as [E23 I23].
  split; [rewrite E23; exact E12 | rewrite I23; exact I12].
Qed.

Lemma same_sections_alter (f : list string → list string)
    (target : string) (d : gmap string (list string)) :
  (∀ cl, classList_remove "cc-highlight" (f cl) = classList_remove "cc-highlight" cl) →
  same_sections d (alter f target d).
Proof.
  intros Hf elementId. split.
  - destruct (decide (target = elementId)) as [-> | Hne].
    + rewrite lookup_alter_eq. destruct (d !! elementId) as [cl |]; cbn; [apply Hf | reflexivity].
    + rewrite lookup_alter_ne by exact Hne. reflexivity.
  - apply lookup_alter_is_Some.
Qed.

Lemma same_sections_remove_highlights (l : list Timer) (d : gmap string (list string)) :
  same_sections d (remove_highlights l d).
Proof.
  revert d. induction l as [| t l IH]; intros d; [apply same_sections_refl |].
  unfold remove_highlights. cbn [foldl]. fold (remove_highlights l).
  destruct (callback t) as [target].
  eapply same_sections_trans; [| apply IH].
  apply same_sections_alter, classList_remove_remove.
Qed.

Lemma step_same_sections (w : World) (ev : Event) :
  same_sections (document w) (document (step w ev)).
Proof.
  pose proof (step_keeps_page w ev) as Hk.
  destruct ev as [i now | | fd now | fd now | | promise r | dt];
    try (destruct Hk as (-> & _);
         [discriminate | intros ?; discriminate | apply same_sections_refl]).
  - destruct (step_scrivici w) as [[_ ->] | (cl & _ & -> & _)];
      [apply same_sections_refl |].
    apply same_sections_alter, classList_remove_add.
  - destruct (step_time_passes w dt) as (_ & _ & ->).
    apply same_sections_remove_highlights.
Qed.

Lemma run_same_sections (evs : list Event) :
  same_sections initial_document (document (run initial evs)).
Proof.
  induction evs as [| ev evs IH] using rev_ind; [apply same_sections_refl |].
  rewrite run_snoc. eapply same_sections_trans; [exact IH | apply step_same_sections].
Qed.

Lemma initial_sections (elementId : string) :
  (is_Some (initial_document !! elementId)
   ↔ elementId ∈ ["mission"; "process"; "prodotti"; "cta"; "contatti"])
  ∧ classList_remove "cc-highlight" (default [] (initial_document !! elementId))
    = default [] (initial_document !! elementId).
Proof.
  unfold initial_document.
  destruct (decide (elementId = "mission")) as [-> | ?];
    [split; [split; [intros _; set_solver | intros _; vm_compute; eauto]
            | vm_compute; reflexivity] |].
  rewrite lookup_insert_ne by congruence.
  destruct (decide (elementId = "process")) as [-> | ?];
    [split; [split; [intros _; set_solver | intros _; vm_compute; eauto]
            | vm_compute; reflexivity] |].
  rewrite lookup_insert_ne by congruence.
  destruct (decide (elementId = "prodotti")) as [-> | ?];
    [split; [split; [intros _; set_solver | intros _; vm_compute; eauto]
            | vm_compute; reflexivity] |].
  rewrite lookup_insert_ne by congruence.
  destruct (decide (elementId = "cta")) as [-> | ?];
    [split; [split; [intros _; set_solver | intros _; vm_compute; eauto]
            | vm_compute; reflexivity] |].
  rewrite lookup_insert_ne by congruence.
  destruct (decide (elementId = "contatti")) as [-> | ?];
    [split; [split; [intros _; set_solver | intros _; vm_compute; eauto]
            | vm_compute; reflexivity] |].
  rewrite lookup_singleton_ne by congruence.
  split; [| reflexivity]. split; [intros [? [=]] |].
  rewrite !elem_of_cons, elem_of_nil. tauto.
Qed.

(** X1. The class lists of the sections only ever differ from those of the
    first render by the highlight, and no element with an id comes or
    goes. *)
Theorem sections_only_toggle_highlight (evs : list Event) (elementId : string) :
  classList_remove "cc-highlight" (classList (run initial evs) elementId)
  = classList initial elementId
  ∧ (is_Some (document (run initial evs) !! elementId)
     ↔ elementId ∈ ["mission"; "process"; "prodotti"; "cta"; "contatti"]).
Proof.
  destruct (run_same_sections evs elementId) as [Hcl Hdom].
  destruct (initial_sections elementId) as [Hin Hclean].
  unfold classList. split.
  - rewrite Hcl. exact Hclean.
  - rewrite Hdom. exact Hin.
Qed.

(** X2. On every page reached, [jumpAndHighlight] on an id that is not one of
    the five sections does nothing at all. *)
Theorem missing_section_is_noop (evs : list Event) (elementId : string) :
  elementId ∉ ["mission"; "process"; "prodotti"; "cta"; "contatti"] →
  dispatch (jumpAndHighlight elementId) (run initial evs) = run initial evs.
Proof.
  intros Hid.
  destruct (run_same_sections evs elementId) as [_ Hdom].
  destruct (initial_sections elementId) as [Hin _].
  unfold dispatch, jumpAndHighlight.
  destruct (document (run initial evs) !! elementId) as [cl |] eqn:E; [| reflexivity].
  contradiction Hid. apply Hin, Hdom. eauto.
Qed.

Lemma missing_section_is_noop_witness :
  dispatch (jumpAndHighlight "nonexistent")
    (run initial [ClickScrivici; TimePasses 300; ClickProduct 0 0])
  = run initial [ClickScrivici; TimePasses 300; ClickProduct 0 0].
Proof.
  apply (missing_section_is_noop
           [ClickScrivici; TimePasses 300; ClickProduct 0 0] "nonexistent").
  rewrite !not_elem_of_cons. repeat split; try discriminate. apply not_elem_of_nil.
Defined.


(** ** Timers *)

Lemma highlighted_iff (w : World) (elementId : string) :
  highlighted w elementId = true
  ↔ "cc-highlight" ∈ default [] (document w !! elementId).
Proof. unfold highlighted, classList. apply bool_decide_eq_true. Qed.

Lemma step_timers_in_window (w : World) (ev : Event) :
  timers_in_window w → timers_in_window (step w ev).
Proof.
  unfold timers_in_window. intros Hw.
  pose proof (step_keeps_page w ev) as Hk.
  destruct ev as [i now | | fd now | fd now | | promise r | dt];
    try (destruct Hk as (_ & -> & -> & _);
         [discriminate | intros ?; discriminate | exact Hw]).
  - destruct (step_scrivici w) as [[_ ->] | (cl & _ & _ & -> & ->)]; [exact Hw |].
    apply Forall_app. split; [exact Hw |].
    constructor; [cbn [due]; lia | constructor].
  - destruct (step_time_passes w dt) as (-> & -> & _).
    apply Forall_forall. intros t Ht.
    apply list_elem_of_filter in Ht as [Hdue Ht].
    rewrite Forall_forall in Hw. specialize (Hw t Ht).
    unfold is_due in Hdue. apply N.leb_gt in Hdue. lia.
Qed.

(** An element still highlighted after some timers have fired was
    highlighted before, and none of those timers was for it. *)
Lemma remove_highlights_elem (l : list Timer) (d : gmap string (list string))
    (elementId : string) :
  "cc-highlight" ∈ default [] (remove_highlights l d !! elementId) →
  "cc-highlight" ∈ default [] (d !! elementId)
  ∧ RemoveHighlight elementId ∉ callback <$> l.
Proof.
  revert d. induction l as [| t l IH]; intros d H.
  - split; [exact H | apply not_elem_of_nil].
  - unfold remove_highlights in H. cbn [foldl] in H. fold (remove_highlights l) in H.
    destruct (callback t) as [target] eqn:Et.
    apply IH in H as [H Hl].
    destruct (decide (target = elementId)) as [-> | Hne].
    + rewrite lookup_alter_eq in H.
      destruct (d !! elementId) as [cl |]; cbn in H.
      * contradiction (classList_remove_not_elem _ _ H).
      * apply elem_of_nil in H. contradiction.
    + rewrite lookup_alter_ne in H by exact Hne. split; [exact H |].
      rewrite fmap_cons, Et. apply not_elem_of_cons. split; [congruence | exact Hl].
Qed.

Lemma step_highlight_has_timer (w : World) (ev : Event) :
  highlight_has_timer w → highlight_has_timer (step w ev).
Proof.
  unfold highlight_has_timer. intros Hw elementId.
  rewrite highlighted_iff.
  pose proof (step_keeps_page w ev) as Hk.
  destruct ev as [i now | | fd now | fd now | | promise r | dt];
    try (destruct Hk as (-> & -> & _);
         [discriminate | intros ?; discriminate
         | rewrite <- highlighted_iff; apply Hw]).
  - destruct (step_scrivici w) as [[_ ->] | (cl & _ & -> & -> & _)];
      [rewrite <- highlighted_iff; apply Hw |].
    intros H. rewrite fmap_app. apply elem_of_app.
    destruct (decide ("contatti" = elementId)) as [<- | Hne].
    + right. apply list_elem_of_singleton. reflexivity.
    + left. rewrite lookup_alter_ne in H by exact Hne.
      apply Hw, highlighted_iff, H.
  - destruct (step_time_passes w dt) as (_ & -> & ->).
    intros H. apply remove_highlights_elem in H as [H Hnot].
    apply highlighted_iff, Hw in H.
    apply list_elem_of_fmap in H as (t & Ht & Hin).
    apply list_elem_of_fmap. exists t. split; [exact Ht |].
    apply list_elem_of_filter. split; [| exact Hin].
    destruct (is_due (clock w + dt) t) eqn:Ed; [| reflexivity].
    contradiction Hnot. apply list_elem_of_fmap. exists t. split; [exact Ht |].
    apply list_elem_of_filter. split; [exact Ed | exact Hin].
Qed.

Lemma run_timers_in_window (evs : list Event) : timers_in_window (run initial evs).
Proof.
  induction evs as [| ev evs IH] using rev_ind; [constructor |].
  rewrite run_snoc. apply step_timers_in_window, IH.
Qed.

Lemma run_highlight_has_timer (evs : list Event) :
  highlight_has_timer (run initial evs).
Proof.
  induction evs as [| ev evs IH] using rev_ind.
  - intros elementId H. apply highlighted_iff in H.
    destruct (initial_sections elementId) as [_ Hclean].
    change (document (run initial [])) with initial_document in H.
    rewrite <- Hclean in H. contradiction (classList_remove_not_elem _ _ H).
  - rewrite run_snoc. apply step_highlight_has_timer, IH.
Qed.

(** X3. On every page reached, each pending timer is due strictly later than
    now and at most 1000 ms from now; a highlighted section always has a
    pending timer that will remove its highlight. *)
Theorem pending_timers_due_within_delay (evs : list Event) :
  Forall (fun t => (clock (run initial evs) < due t ≤ clock (run initial evs) + 1000)%N)
    (timers (run initial evs))
  ∧ ∀ elementId,
      highlighted (run initial evs) elementId = true →
      RemoveHighlight elementId ∈ callback <$> timers (run initial evs).
Proof.
  split; [exact (run_timers_in_window evs) | exact (run_highlight_has_timer evs)].
Qed.



(** X5. One call on its own: from a page with no timer pending, a section that
    is there is highlighted at once, still highlighted [d] ms later for
    every [d] below 1000, and no longer from 1000 ms on. *)
Theorem highlight_lasts_one_second
    (w : World) (elementId : string) (cl : list string) (d : N) :
  document w !! elementId = Some cl →
  timers w = [] →
  let w1 := dispatch (jumpAndHighlight elementId) w in
  highlighted w1 elementId = true
  ∧ scrolled w1 = scrolled w ++ [elementId]
  ∧ highlighted (step w1 (TimePasses d)) elementId = (d <? 1000)%N.
Proof.
  intros Hdoc Htim w1.
  eassert (H1 : w1 = _).
  { subst w1. unfold dispatch. rewrite (jumpAndHighlight_run _ cl _ Hdoc), Htim.
    reflexivity. }
  clearbody w1. subst w1.
  split; [| split; [reflexivity |]].
  { apply highlighted_iff. cbn [document]. rewrite lookup_alter_eq, Hdoc. cbn.
    apply classList_add_elem. }
  match goal with
  | |- context [step ?w1 _] => destruct (step_time_passes w1 d) as (_ & _ & Hd)
  end.
  unfold highlighted, classList. rewrite Hd. cbn [clock timers document app].
  destruct (N.ltb_spec d 1000) as [Hlt | Hge].
  - rewrite (filter_cons_False (fun t => is_due (clock w + d) t = true))
      by (unfold is_due; cbn [due]; rewrite not_true_iff_false; apply N.leb_gt; lia).
    rewrite filter_nil. unfold remove_highlights. cbn [foldl].
    rewrite lookup_alter_eq, Hdoc. cbn.
    apply bool_decide_eq_true_2, classList_add_elem.
  - rewrite (filter_cons_True (fun t => is_due (clock w + d) t = true))
      by (unfold is_due; cbn [due]; apply N.leb_le; lia).
    rewrite filter_nil. unfold remove_highlights. cbn [foldl callback].
    rewrite !lookup_alter_eq, Hdoc. cbn.
    apply bool_decide_eq_false_2, classList_remove_not_elem.
Qed.

Lemma highlight_lasts_one_second_witness :
  let w1 := dispatch (jumpAndHighlight "contatti") initial in
  highlighted (step w1 (TimePasses 999)) "contatti" = true
  ∧ highlighted (step w1 (TimePasses 1000)) "contatti" = false.
Proof.
  cbv zeta. split.
  - exact (proj2 (proj2 (highlight_lasts_one_second initial "contatti" _ 999
                           eq_refl eq_refl))).
  - exact (proj2 (proj2 (highlight_lasts_one_second initial "contatti" _ 1000
                           eq_refl eq_refl))).
Defined.

(** ** The submissions over a whole session *)

(** What the settling of a promise in flight does, in one equation. *)
Lemma step_settle (w : World) (n : nat) (k : Continuation) (r : FetchResult) :
  pending w !! n = Some k →
  step w (FetchSettles n r)
  = match k with
    | AfterContactFetch => with_pending (delete n) w
    | AfterFakeDoorFetch =>
        with_ui (fun c =>
          {| open := open c; clickedProduct := clickedProduct c;
             submitting := false;
             submitMsg := if is_failure r then None else Some grazie |})
          (with_pending (delete n) w)
    | AfterModalFetch p =>
        with_ui (fun c =>
          {| open := open c; clickedProduct := clickedProduct c;
             submitting := false;
             submitMsg := if is_failure r then None else Some perfetto |})
          (with_location_href
             (fun l => if is_failure r then l ++ [fallback_link p] else l)
             (with_pending (delete n) w))
    end.
Proof.
  intros Hk. cbn [step]. rewrite Hk. unfold dispatch.
  destruct k as [| p |]; cbn [resume].
  - destruct (is_failure r) eqn:E;
      [rewrite handleFakeDoor_resume_failure by exact E
      | rewrite handleFakeDoor_resume_delivered by exact E]; reflexivity.
  - destruct (is_failure r) eqn:E;
      [rewrite modalOnSubmit_resume_failure by exact E
      | rewrite modalOnSubmit_resume_delivered by exact E]; reflexivity.
  - rewrite contactOnSubmit_resume_run. reflexivity.
Qed.

Lemma step_settle_none (w : World) (n : nat) (r : FetchResult) :
  pending w !! n = None → step w (FetchSettles n r) = w.
Proof. intros Hk. cbn [step]. rewrite Hk. reflexivity. Qed.

Lemma step_scrivici_frame (w : World) :
  ui (step w ClickScrivici) = ui w
  ∧ network (step w ClickScrivici) = network w
  ∧ pending (step w ClickScrivici) = pending w
  ∧ alerts (step w ClickScrivici) = alerts w
  ∧ location_href (step w ClickScrivici) = location_href w
  ∧ form_resets (step w ClickScrivici) = form_resets w.
Proof.
  cbn [step]. unfold dispatch, jumpAndHighlight.
  destruct (document w !! "contatti"); repeat split.
Qed.

Lemma step_time_frame (w : World) (dt : N) :
  ui (step w (TimePasses dt)) = ui w
  ∧ network (step w (TimePasses dt)) = network w
  ∧ pending (step w (TimePasses dt)) = pending w
  ∧ alerts (step w (TimePasses dt)) = alerts w
  ∧ location_href (step w (TimePasses dt)) = location_href w
  ∧ form_resets (step w (TimePasses dt)) = form_resets w.
Proof.
  destruct (fire_timers_frame (with_clock (fun c => (c + dt)%N) w))
    as (H1 & H2 & H3 & H4 & H5 & H6 & _).
  cbn [step]. rewrite H1, H2, H3, H4, H5, H6. repeat split.
Qed.

(** One step on the state of the submission: it was at most touched by a
    click on a product, a submission of the modal form that is not
    disabled, or the settling of one of their promises. *)
Lemma step_pending_in_log (w : World) (ev : Event) :
  pending_in_log w → pending_in_log (step w ev).
Proof.
  unfold pending_in_log. intros Hw n.
  destruct ev as [i now | | fd now | fd now | | promise r | dt].
  - cbn [step]. destruct (products !! i) as [p |]; [| apply Hw].
    unfold dispatch. rewrite handleFakeDoor_run. cbn [pending network].
    rewrite length_app. cbn [length]. intros H.
    destruct (decide (length (network w) = n)) as [<- | Hne]; [lia |].
    rewrite lookup_insert_ne in H by exact Hne. apply Hw in H. lia.
  - cbn [step]. destruct (modal_rendered (ui w)); apply Hw.
  - cbn [step]. destruct (modal_rendered (ui w)) as [p |]; [| apply Hw].
    destruct (submitting (ui w)); [apply Hw |].
    unfold dispatch. rewrite modalOnSubmit_run. cbn [pending network].
    rewrite length_app. cbn [length]. intros H.
    destruct (decide (length (network w) = n)) as [<- | Hne]; [lia |].
    rewrite lookup_insert_ne in H by exact Hne. apply Hw in H. lia.
  - cbn [step]. unfold dispatch. rewrite contactOnSubmit_run. cbn [pending network].
    rewrite length_app. cbn [length]. intros H.
    destruct (decide (length (network w) = n)) as [<- | Hne]; [lia |].
    rewrite lookup_insert_ne in H by exact Hne. apply Hw in H. lia.
  - destruct (step_scrivici_frame w) as (_ & -> & -> & _). apply Hw.
  - destruct (pending w !! promise) as [k |] eqn:E;
      [| rewrite (step_settle_none w promise r E); apply Hw].
    rewrite (step_settle w promise k r E).
    destruct k; cbn [pending network with_ui with_pending with_location_href];
      intros H; apply Hw;
      (destruct (decide (promise = n)) as [-> | Hne];
       [rewrite lookup_delete_eq in H; destruct H as [? [=]]
       | rewrite lookup_delete_ne in H by exact Hne; exact H]).
  - destruct (step_time_frame w dt) as (_ & -> & -> & _). apply Hw.
Qed.

Lemma step_no_message_while_submitting (w : World) (ev : Event) :
  (submitting (ui w) = true → submitMsg (ui w) = None) →
  submitting (ui (step w ev)) = true → submitMsg (ui (step w ev)) = None.
Proof.
  intros Hw.
  destruct ev as [i now | | fd now | fd now | | promise r | dt].
  - cbn [step]. destruct (products !! i) as [p |]; [| exact Hw].
    unfold dispatch. rewrite handleFakeDoor_run. reflexivity.
  - cbn [step]. destruct (modal_rendered (ui w)); exact Hw.
  - cbn [step]. destruct (modal_rendered (ui w)) as [p |]; [| exact Hw].
    destruct (submitting (ui w)) eqn:Es; [intros _; exact (Hw eq_refl) |].
    unfold dispatch. rewrite modalOnSubmit_run. reflexivity.
  - cbn [step]. unfold dispatch. rewrite contactOnSubmit_run. exact Hw.
  - destruct (step_scrivici_frame w) as (-> & _). exact Hw.
  - destruct (pending w !! promise) as [k |] eqn:E;
      [| rewrite (step_settle_none w promise r E); exact Hw].
    rewrite (step_settle w promise k r E).
    destruct k; cbn; [discriminate | discriminate | exact Hw].
  - destruct (step_time_frame w dt) as (-> & _). exact Hw.
Qed.

Lemma step_submitting_has_request (w : World) (ev : Event) :
  pending_in_log w → submitting_has_request w →
  submitting_has_request (step w ev).
Proof.
  unfold submitting_has_request. intros Hlog Hw.
  destruct ev as [i now | | fd now | fd now | | promise r | dt].
  - cbn [step]. destruct (products !! i) as [p |]; [| exact Hw].
    unfold dispatch. rewrite handleFakeDoor_run. cbn [pending ui]. intros _.
    eexists _, _. split; [apply lookup_insert_eq | discriminate].
  - cbn [step]. destruct (modal_rendered (ui w)); exact Hw.
  - cbn [step]. destruct (modal_rendered (ui w)) as [p |]; [| exact Hw].
    destruct (submitting (ui w)) eqn:Es; [intros _; exact (Hw eq_refl) |].
    unfold dispatch. rewrite modalOnSubmit_run. cbn [pending ui]. intros _.
    eexists _, _. split; [apply lookup_insert_eq | discriminate].
  - cbn [step]. unfold dispatch. rewrite contactOnSubmit_run. cbn [pending ui].
    intros Hs. destruct (Hw Hs) as (n & k & Hn & Hk).
    exists n, k. split; [| exact Hk].
    rewrite lookup_insert_ne; [exact Hn |].
    assert (n < length (network w))%nat by (apply Hlog; eauto). lia.
  - destruct (step_scrivici_frame w) as (-> & _ & -> & _). exact Hw.
  - destruct (pending w !! promise) as [k |] eqn:E;
      [| rewrite (step_settle_none w promise r E); exact Hw].
    rewrite (step_settle w promise k r E).
    destruct k; cbn; [discriminate | discriminate |].
    intros Hs. destruct (Hw Hs) as (n & k & Hn & Hk).
    exists n, k. split; [| exact Hk].
    rewrite lookup_delete_ne; [exact Hn |]. intros ->. congruence.
  - destruct (step_time_frame w dt) as (-> & _ & -> & _). exact Hw.
Qed.

Lemma step_catalog_only (w : World) (ev : Event) :
  catalog_only w → catalog_only (step w ev).
Proof.
  unfold catalog_only. intros [Hc Hp].
  destruct ev as [i now | | fd now | fd now | | promise r | dt].
  - cbn [step]. destruct (products !! i) as [p |] eqn:E; [| tauto].
    unfold dispatch. rewrite handleFakeDoor_run. cbn [pending ui clickedProduct].
    split.
    + intros q [= <-]. eapply list_elem_of_lookup_2; exact E.
    + intros n q H. apply lookup_insert_Some in H as [[_ [=]] | [_ H]]. eauto.
  - cbn [step]. destruct (modal_rendered (ui w)); tauto.
  - cbn [step]. destruct (modal_rendered (ui w)) as [p |] eqn:E; [| tauto].
    destruct (submitting (ui w)); [tauto |].
    unfold dispatch. rewrite modalOnSubmit_run. cbn [pending ui clickedProduct].
    split; [exact Hc |].
    intros n q H. apply lookup_insert_Some in H as [[_ [= <-]] | [_ H]]; [| eauto].
    apply Hc. unfold modal_rendered in E.
    destruct (open (ui w)); [exact E | discriminate].
  - cbn [step]. unfold dispatch. rewrite contactOnSubmit_run. cbn [pending ui].
    split; [exact Hc |].
    intros n q H. apply lookup_insert_Some in H as [[_ [=]] | [_ H]]. eauto.
  - destruct (step_scrivici_frame w) as (-> & _ & -> & _). tauto.
  - destruct (pending w !! promise) as [k |] eqn:E;
      [| rewrite (step_settle_none w promise r E); tauto].
    rewrite (step_settle w promise k r E).
    destruct k; cbn; (split; [exact Hc |]);
      intros n q H; apply lookup_delete_Some in H as [_ H]; eauto.
  - destruct (step_time_frame w dt) as (-> & _ & -> & _). tauto.
Qed.

(** The page navigates in one case only. *)
Lemma step_location_href (w : World) (ev : Event) :
  location_href (step w ev) = location_href w
  ∨ ∃ n p r,
      ev = FetchSettles n r
      ∧ pending w !! n = Some (AfterModalFetch p)
      ∧ is_failure r = true
      ∧ location_href (step w ev) = location_href w ++ [fallback_link p].
Proof.
  destruct ev as [i now | | fd now | fd now | | promise r | dt].
  - left. cbn [step]. destruct (products !! i) as [p |]; [| reflexivity].
    unfold dispatch. rewrite handleFakeDoor_run. reflexivity.
  - left. cbn [step]. destruct (modal_rendered (ui w)); reflexivity.
  - left. cbn [step]. destruct (modal_rendered (ui w)) as [p |]; [| reflexivity].
    destruct (submitting (ui w)); [reflexivity |].
    unfold dispatch. rewrite modalOnSubmit_run. reflexivity.
  - left. cbn [step]. unfold dispatch. rewrite contactOnSubmit_run. reflexivity.
  - left. destruct (step_scrivici_frame w) as (_ & _ & _ & _ & -> & _). reflexivity.
  - destruct (pending w !! promise) as [k |] eqn:E;
      [| left; rewrite (step_settle_none w promise r E); reflexivity].
    rewrite (step_settle w promise k r E).
    destruct k as [| p |]; [left; reflexivity | | left; reflexivity].
    destruct (is_failure r) eqn:Er; [| left; reflexivity].
    right. exists promise, p, r.
    split; [reflexivity |]. split; [exact E |]. split; [exact Er | reflexivity].
  - left. destruct (step_time_frame w dt) as (_ & _ & _ & _ & -> & _). reflexivity.
Qed.

Lemma step_alerts (w : World) (ev : Event) :
  alerts (step w ev) = alerts w ++ replicate (contact_submissions [ev]) thanks_contact
  ∧ form_resets (step w ev) = (form_resets w + contact_submissions [ev])%nat.
Proof.
  destruct ev as [i now | | fd now | fd now | | promise r | dt];
    cbn [contact_submissions replicate]; rewrite ?app_nil_r, ?Nat.add_0_r.
  - cbn [step]. destruct (products !! i) as [p |]; [| tauto].
    unfold dispatch. rewrite handleFakeDoor_run. split; reflexivity.
  - cbn [step]. destruct (modal_rendered (ui w)); split; reflexivity.
  - cbn [step]. destruct (modal_rendered (ui w)) as [p |]; [| tauto].
    destruct (submitting (ui w)); [tauto |].
    unfold dispatch. rewrite modalOnSubmit_run. split; reflexivity.
  - cbn [step]. unfold dispatch. rewrite contactOnSubmit_run. cbn [alerts form_resets].
    split; [reflexivity | lia].
  - destruct (step_scrivici_frame w) as (_ & _ & _ & -> & _ & ->). tauto.
  - destruct (pending w !! promise) as [k |] eqn:E;
      [| rewrite (step_settle_none w promise r E); tauto].
    rewrite (step_settle w promise k r E). destruct k; split; reflexivity.
  - destruct (step_time_frame w dt) as (_ & _ & _ & -> & _ & ->). tauto.
Qed.

Lemma run_cons (w : World) (ev : Event) (evs : list Event) :
  run w (ev :: evs) = run (step w ev) evs.
Proof. reflexivity. Qed.

Lemma run_session_invariants (evs : list Event) :
  pending_in_log (run initial evs)
  ∧ submitting_has_request (run initial evs)
  ∧ catalog_only (run initial evs)
  ∧ (submitting (ui (run initial evs)) = true → submitMsg (ui (run initial evs)) = None).
Proof.
  induction evs as [| ev evs (H1 & H2 & H3 & H4)] using rev_ind.
  - change (run initial []) with initial.
    unfold pending_in_log, submitting_has_request, catalog_only, initial.
    cbn [pending ui submitting clickedProduct].
    split; [intros n [k Hk]; rewrite lookup_empty in Hk; discriminate |].
    split; [intros [=] |]. split; [| intros [=]].
    split; [intros p [=] | intros n p Hk; rewrite lookup_empty in Hk; discriminate].
  - rewrite run_snoc.
    split; [apply step_pending_in_log, H1 |].
    split; [apply step_submitting_has_request; assumption |].
    split; [apply step_catalog_only, H3 |].
    apply step_no_message_while_submitting, H4.
Qed.

(** X6. A confirmation is never on display while a submission is in flight:
    on every page reached, [submitting] implies that there is no message. *)
Theorem no_confirmation_while_submitting (evs : list Event) :
  submitting (ui (run initial evs)) = true →
  submitMsg (ui (run initial evs)) = None.
Proof. exact (proj2 (proj2 (proj2 (run_session_invariants evs)))). Qed.

Lemma no_confirmation_while_submitting_witness :
  submitMsg
    (ui (run initial
           [ClickProduct 1 0; FetchSettles 0 (Fulfilled {| ok := true |});
            SubmitModalForm {[ "email" := "a@b.com" ]} 5]))
  = None.
Proof.
  exact (no_confirmation_while_submitting
           [ClickProduct 1 0; FetchSettles 0 (Fulfilled {| ok := true |});
            SubmitModalForm {[ "email" := "a@b.com" ]} 5] eq_refl).
Defined.

(** X7. The submit button of the modal is never left disabled for good: on
    every page reached, while [submitting] holds the notification of a
    call-to-action or of the modal form is still in flight, and its
    settling sets [submitting] back to false. *)
Theorem submitting_means_in_flight (evs : list Event) :
  submitting (ui (run initial evs)) = true →
  ∃ n k,
    pending (run initial evs) !! n = Some k
    ∧ k ≠ AfterContactFetch
    ∧ ∀ r, submitting (ui (step (run initial evs) (FetchSettles n r))) = false.
Proof.
  intros Hs.
  destruct (proj1 (proj2 (run_session_invariants evs)) Hs) as (n & k & Hn & Hk).
  exists n, k. split; [exact Hn |]. split; [exact Hk |].
  intros r. rewrite (step_settle _ n k r Hn).
  destruct k; [reflexivity | reflexivity | contradiction Hk; reflexivity].
Qed.

Lemma submitting_means_in_flight_witness :
  ∃ n k,
    pending (run initial [ClickProduct 2 0; ClickModalClose]) !! n = Some k
    ∧ k ≠ AfterContactFetch
    ∧ ∀ r, submitting
             (ui (step (run initial [ClickProduct 2 0; ClickModalClose])
                    (FetchSettles n r))) = false.
Proof.
  exact (submitting_means_in_flight [ClickProduct 2 0; ClickModalClose] eq_refl).
Defined.

(** X8. The modal form, delivered.  A submission of the modal form that is not
    disabled, whatever happens on the page before its promise settles: when
    the response is [ok], [submitting] goes back to false and the message
    of the modal form is set; the page does not navigate, raises no alert
    and the modal state is as it was. *)
Theorem modal_delivery_confirms
    (w : World) (p : Product) (fd : gmap string string) (now : Z)
    (evs : list Event) (r : FetchResult) :
  modal_rendered (ui w) = Some p →
  submitting (ui w) = false →
  Forall (fun ev => ∀ r', ev ≠ FetchSettles (length (network w)) r') evs →
  is_failure r = false →
  let w2 := run (step w (SubmitModalForm fd now)) evs in
  let w3 := step w2 (FetchSettles (length (network w)) r) in
  submitting (ui w3) = false
  ∧ submitMsg (ui w3) = Some "Perfetto! Ti avviseremo appena disponibile."
  ∧ location_href w3 = location_href w2
  ∧ alerts w3 = alerts w2
  ∧ modalState (ui w3) = modalState (ui w2)
  ∧ pending w3 = delete (length (network w)) (pending w2).
Proof.
  intros Hp Hs Hevs Hr w2 w3.
  assert (Hk : pending w2 !! length (network w) = Some (AfterModalFetch p)).
  { subst w2. apply run_pending_other; [| | exact Hevs].
    - cbn [step]. rewrite Hp, Hs. unfold dispatch. rewrite modalOnSubmit_run.
      apply lookup_insert_eq.
    - cbn [step]. rewrite Hp, Hs. unfold dispatch. rewrite modalOnSubmit_run.
      cbn [network]. rewrite length_app. cbn [length]. lia. }
  subst w3. rewrite (step_settle w2 _ _ r Hk). rewrite Hr. repeat split.
Qed.

Lemma modal_delivery_confirms_witness :
  let w := run initial [ClickProduct 1 0; FetchSettles 0 (Fulfilled {| ok := true |})] in
  let w2 := run (step w (SubmitModalForm {[ "email" := "a@b.com" ]} 7))
              [ClickModalClose; ClickScrivici] in
  submitMsg (ui (step w2 (FetchSettles 1 (Fulfilled {| ok := true |}))))
  = Some "Perfetto! Ti avviseremo appena disponibile.".
Proof.
  cbv zeta.
  refine (proj1 (proj2 (modal_delivery_confirms
            (run initial [ClickProduct 1 0; FetchSettles 0 (Fulfilled {| ok := true |})])
            {| id := "pellet"; name := "Pellet da scarti di caffè";
               status := futuro;
               summary := "Combustibile sostenibile e tracciabile ottenuto dal residuo di lavorazione.";
               tag := "R&D"; color := "bg-[#8E4A49]" |}
            {[ "email" := "a@b.com" ]} 7 [ClickModalClose; ClickScrivici]
            (Fulfilled {| ok := true |}) eq_refl eq_refl _ eq_refl))).
  repeat constructor; discriminate.
Defined.

(** X9. The call-to-action, settled.  A click on a product of the catalog,
    whatever happens on the page before its promise settles: [submitting]
    goes back to false, the message is the thanks of the call-to-action
    when the response is [ok] and absent otherwise, and in both cases the
    page does not navigate, raises no alert and the modal state is as it
    was. *)
Theorem fake_door_settles_quietly
    (w : World) (i : nat) (p : Product) (now : Z)
    (evs : list Event) (r : FetchResult) :
  products !! i = Some p →
  Forall (fun ev => ∀ r', ev ≠ FetchSettles (length (network w)) r') evs →
  let w2 := run (step w (ClickProduct i now)) evs in
  let w3 := step w2 (FetchSettles (length (network w)) r) in
  submitting (ui w3) = false
  ∧ submitMsg (ui w3)
    = (if is_failure r then None
       else Some "Grazie! Abbiamo registrato il tuo interesse e avvisato l'amministratore.")
  ∧ location_href w3 = location_href w2
  ∧ alerts w3 = alerts w2
  ∧ modalState (ui w3) = modalState (ui w2).
Proof.
  intros Hp Hevs w2 w3.
  assert (Hk : pending w2 !! length (network w) = Some AfterFakeDoorFetch).
  { subst w2. apply run_pending_other; [| | exact Hevs].
    - cbn [step]. rewrite Hp. unfold dispatch. rewrite handleFakeDoor_run.
      apply lookup_insert_eq.
    - cbn [step]. rewrite Hp. unfold dispatch. rewrite handleFakeDoor_run.
      cbn [network]. rewrite length_app. cbn [length]. lia. }
  subst w3. rewrite (step_settle w2 _ _ r Hk). repeat split.
Qed.

Lemma fake_door_settles_quietly_witness :
  let w2 := run (step initial (ClickProduct 3 0)) [ClickModalClose] in
  let w3 := step w2 (FetchSettles 0 (Fulfilled {| ok := false |})) in
  submitMsg (ui w3) = None ∧ location_href w3 = [].
Proof.
  cbv zeta.
  pose proof (fake_door_settles_quietly initial 3 _ 0 [ClickModalClose]
                (Fulfilled {| ok := false |}) eq_refl) as H.
  cbv zeta in H. destruct H as (_ & H2 & H3 & _).
  - repeat constructor; discriminate.
  - split; [exact H2 | exact H3].
Defined.

(** X10. The page navigates in one case only, the failed notification of the
    modal form, and only ever to the fallback link of a product of the
    catalog. *)
Theorem navigation_only_to_fallback_links :
  (∀ w ev,
     location_href (step w ev) = location_href w
     ∨ ∃ n p r,
         ev = FetchSettles n r
         ∧ pending w !! n = Some (AfterModalFetch p)
         ∧ is_failure r = true
         ∧ location_href (step w ev) = location_href w ++ [fallback_link p])
  ∧ (∀ evs,
       Forall (fun href => ∃ p, p ∈ products ∧ href = fallback_link p)
         (location_href (run initial evs))).
Proof.
  split; [exact step_location_href |].
  intros evs. induction evs as [| ev evs IH] using rev_ind; [constructor |].
  rewrite run_snoc.
  destruct (step_location_href (run initial evs) ev)
    as [-> | (n & p & r & _ & Hk & _ & ->)]; [exact IH |].
  apply Forall_app. split; [exact IH |].
  constructor; [| constructor]. exists p. split; [| reflexivity].
  exact (proj2 (proj1 (proj2 (proj2 (run_session_invariants evs)))) n p Hk).
Qed.

(** X11. The only alert of the page is the thanks of the contact form: over any
    events from any page, one is raised, and the form is reset, for each
    submission of the contact form and for nothing else. *)
Theorem contact_thanks_once_per_submission (w : World) (evs : list Event) :
  alerts (run w evs)
  = alerts w ++ replicate (contact_submissions evs) thanks_contact
  ∧ form_resets (run w evs) = (form_resets w + contact_submissions evs)%nat.
Proof.
  revert w. induction evs as [| ev evs IH]; intros w.
  - cbn [contact_submissions replicate]. rewrite app_nil_r, Nat.add_0_r.
    split; reflexivity.
  - rewrite run_cons. destruct (IH (step w ev)) as [-> ->].
    destruct (step_alerts w ev) as [-> ->].
    assert (Hc : contact_submissions (ev :: evs)
                 = (contact_submissions [ev] + contact_submissions evs)%nat)
      by (destruct ev; reflexivity).
    rewrite Hc, replicate_add, <- app_assoc. split; [reflexivity | lia].
Qed.

Lemma run_modal_invariant (evs : list Event) :
  modal_invariant (modalState (ui (run initial evs))).
Proof.
  induction evs as [| ev evs IH] using rev_ind; [intros [=] |].
  rewrite run_snoc. apply step_modal_invariant, IH.
Qed.

(** X12. The modal state follows the clicks on the products and on the close
    button and nothing else: no submission, no settling of a promise, no
    highlight and no timer ever opens, closes or retargets the modal. *)
Theorem modal_state_follows_clicks (evs : list Event) :
  modalState (ui (run initial evs)) = foldl modal_step (modalState (ui initial)) evs.
Proof.
  induction evs as [| ev evs IH] using rev_ind; [reflexivity |].
  rewrite run_snoc, foldl_app. cbn [foldl]. rewrite <- IH.
  pose proof (run_modal_invariant evs) as Hinv.
  destruct ev as [i now | | fd now | fd now | | promise r | dt]; cbn [modal_step].
  - cbn [step]. destruct (products !! i) as [p |]; [| reflexivity].
    unfold dispatch. rewrite handleFakeDoor_run. reflexivity.
  - cbn [step]. unfold modal_rendered.
    destruct (open (ui (run initial evs))) eqn:Ho.
    + destruct (clickedProduct (ui (run initial evs))) as [p |] eqn:Hc.
      * unfold modalState. cbn. rewrite Hc. reflexivity.
      * contradiction (Hinv Ho Hc).
    + unfold modalState. rewrite Ho. reflexivity.
  - cbn [step]. destruct (modal_rendered (ui (run initial evs))) as [p |]; [| reflexivity].
    destruct (submitting (ui (run initial evs))); [reflexivity |].
    unfold dispatch. rewrite modalOnSubmit_run. reflexivity.
  - cbn [step]. unfold dispatch. rewrite contactOnSubmit_run. reflexivity.
  - destruct (step_scrivici_frame (run initial evs)) as (-> & _). reflexivity.
  - destruct (pending (run initial evs) !! promise) as [k |] eqn:E;
      [| rewrite (step_settle_none _ promise r E); reflexivity].
    rewrite (step_settle _ promise k r E). destruct k; reflexivity.
  - destruct (step_time_frame (run initial evs) dt) as (-> & _). reflexivity.
Qed.

(** ** Reading back what the page sends *)

Lemma append_assoc (a b c : string) : (a +:+ b) +:+ c = a +:+ (b +:+ c).
Proof.
  induction a as [| x a IH]; [reflexivity |].
  change (String x ((a +:+ b) +:+ c) = String x (a +:+ (b +:+ c))).
  rewrite IH. reflexivity.
Qed.

Lemma chr_code (c : ascii) : chr (code c) = c.
Proof. unfold chr, code. rewrite N2Z.id. apply ascii_N_embedding. Qed.

Lemma json_unescape_escape_char (c : ascii) (rest : string) :
  json_unescape (json_escape_char c +:+ rest)
  = match json_unescape rest with
    | Some (a, b) => Some (String c a, b)
    | None => None
    end.
Proof.
  destruct c as [[] [] [] [] [] [] [] []];
    match goal with
    | |- context [json_escape_char ?a] =>
        let s := eval vm_compute in (json_escape_char a) in
        change (json_escape_char a) with s
    end;
    cbv [String.append]; cbn; reflexivity.
Qed.

Lemma json_unescape_escape (s rest : string) :
  json_unescape (json_escape s +:+ String dquote rest) = Some (s, rest).
Proof.
  induction s as [| c s IH]; [reflexivity |].
  cbn [json_escape]. rewrite append_assoc, json_unescape_escape_char, IH.
  reflexivity.
Qed.

Lemma json_read_string_quote (s rest : string) :
  json_read_string (json_quote s +:+ rest) = Some (s, rest).
Proof.
  unfold json_quote.
  change (String dquote (json_escape s +:+ String dquote EmptyString) +:+ rest)
    with (String dquote ((json_escape s +:+ String dquote EmptyString) +:+ rest)).
  rewrite append_assoc. cbn [json_read_string].
  change (Ascii.eqb dquote dquote) with true. cbv iota.
  apply json_unescape_escape.
Qed.

Lemma json_read_members_members
    (fields : list (string * string)) (k v : string) (fuel : nat) (tail : string) :
  (length fields < fuel)%nat →
  json_read_members fuel (json_members ((k, v) :: fields) +:+ String "}" tail)
  = Some ((k, v) :: fields, tail).
Proof.
  revert k v fuel. induction fields as [| [k' v'] fields IH]; intros k v fuel Hfuel;
    (destruct fuel as [| fuel]; [cbn [length] in Hfuel; lia |]).
  - cbn [json_members json_read_members].
    rewrite !append_assoc, json_read_string_quote.
    change (":" +:+ ?x) with (String ":" x).
    change (Ascii.eqb ":" ":") with true. cbv iota.
    rewrite json_read_string_quote.
    change (Ascii.eqb "}" "}") with true. reflexivity.
  - change (json_members ((k, v) :: (k', v') :: fields))
      with (json_quote k +:+ ":" +:+ json_quote v +:+ "," +:+
            json_members ((k', v') :: fields)).
    cbn [json_read_members].
    rewrite !append_assoc, json_read_string_quote.
    change (":" +:+ ?x) with (String ":" x).
    change (Ascii.eqb ":" ":") with true. cbv iota.
    rewrite json_read_string_quote.
    change ("," +:+ ?x) with (String "," x).
    change (Ascii.eqb "," "}") with false.
    change (Ascii.eqb "," ",") with true. cbv iota.
    rewrite IH by (cbn [length] in Hfuel; lia). reflexivity.
Qed.

Lemma length_append (a b : string) :
  String.length (a +:+ b) = (String.length a + String.length b)%nat.
Proof.
  induction a as [| c a IH]; [reflexivity |].
  change (S (String.length (a +:+ b)) = S (String.length a + String.length b)).
  rewrite IH. reflexivity.
Qed.

Lemma length_json_members (fields : list (string * string)) :
  (length fields ≤ String.length (json_members fields))%nat.
Proof.
  induction fields as [| [k v] fields IH]; [cbn; lia |].
  destruct fields as [| kv fields].
  - cbn [json_members length]. rewrite !length_append.
    change (String.length ":") with 1%nat. lia.
  - change (json_members ((k, v) :: kv :: fields))
      with (json_quote k +:+ ":" +:+ json_quote v +:+ "," +:+
            json_members (kv :: fields)).
    rewrite !length_append. cbn [length] in IH |- *.
    change (String.length ",") with 1%nat. lia.
Qed.

(** The text [JSON.stringify] writes for an object of strings reads back
    as the same fields, whatever characters they hold. *)
Lemma JSON_parse_stringify (fields : list (string * string)) :
  JSON_parse_object (JSON_stringify (JObject fields)) = Some fields.
Proof.
  destruct fields as [| [k v] fields]; [reflexivity |].
  cbn [JSON_stringify].
  change ("{" +:+ ?x) with (String "{" x).
  cbn [JSON_parse_object]. change (Ascii.eqb "{" "{") with true. cbv iota.
  assert (Hne : String.eqb (json_members ((k, v) :: fields) +:+ "}") "}" = false).
  { destruct fields as [| kv fields];
      [cbn [json_members]
      | change (json_members ((k, v) :: kv :: fields))
          with (json_quote k +:+ ":" +:+ json_quote v +:+ "," +:+
                json_members (kv :: fields))];
      unfold json_quote at 1; reflexivity. }
  rewrite Hne.
  rewrite json_read_members_members; [reflexivity |].
  rewrite length_append. pose proof (length_json_members ((k, v) :: fields)) as H.
  cbn [length] in H. change (String.length "}") with 1%nat. lia.
Qed.

(** X13. The body of each request reads back, as JSON, as the fields its handler
    wrote: the id of the product, or [contact]; the fixed address for a
    click on a product and the [email] entry of the form otherwise; for the
    contact form the [name] and [message] entries under [name] and [msg];
    the instant of the submission.  An entry the form does not hold is sent
    as the empty string, and no character of an entry can break out of its
    field. *)
Theorem request_bodies_parse_back :
  (∀ p now w, ∃ r,
     network (dispatch (handleFakeDoor p now) w) = network w ++ [r]
     ∧ JSON_parse_object (body r)
       = Some [("product", id p); ("email", "info@coffeecore.it");
               ("ts", toISOString now)])
  ∧ (∀ p fd now w, ∃ r,
       network (dispatch (modalOnSubmit p fd now) w) = network w ++ [r]
       ∧ JSON_parse_object (body r)
         = Some [("product", id p); ("email", default EmptyString (fd !! "email"));
                 ("ts", toISOString now)])
  ∧ (∀ fd now w, ∃ r,
       network (dispatch (contactOnSubmit fd now) w) = network w ++ [r]
       ∧ JSON_parse_object (body r)
         = Some [("product", "contact");
                 ("email", default EmptyString (fd !! "email"));
                 ("name", default EmptyString (fd !! "name"));
                 ("msg", default EmptyString (fd !! "message"));
                 ("ts", toISOString now)]).
Proof.
  split; [| split].
  - intros p now w. unfold dispatch. rewrite handleFakeDoor_run.
    eexists. split; [reflexivity |]. apply JSON_parse_stringify.
  - intros p fd now w. unfold dispatch. rewrite modalOnSubmit_run.
    eexists. split; [reflexivity |]. apply JSON_parse_stringify.
  - intros fd now w. unfold dispatch. rewrite contactOnSubmit_run.
    eexists. split; [reflexivity |]. apply JSON_parse_stringify.
Qed.

Lemma string_forall_app (P : ascii → bool) (a b : string) :
  string_forall P (a +:+ b) = string_forall P a && string_forall P b.
Proof.
  induction a as [| c a IH]; [reflexivity |].
  change (P c && string_forall P (a +:+ b)
          = P c && string_forall P a && string_forall P b).
  rewrite IH. apply andb_assoc.
Qed.

Lemma uri_safe_encode_char (c : ascii) :
  string_forall uri_safe (encodeURIComponent (String c EmptyString)) = true.
Proof. destruct c as [[] [] [] [] [] [] [] []]; vm_compute; reflexivity. Qed.

Lemma encodeURIComponent_cons (c : ascii) (s : string) :
  encodeURIComponent (String c s)
  = encodeURIComponent (String c EmptyString) +:+ encodeURIComponent s.
Proof. cbn [encodeURIComponent]. destruct (uri_unreserved c); reflexivity. Qed.

(** X14. [encodeURIComponent] writes unreserved characters and percent signs
    only, leaves a string of unreserved characters as it is, and loses
    nothing: percent-decoding gives the string back. *)
Theorem encodeURIComponent_safe_and_invertible (s : string) :
  string_forall uri_safe (encodeURIComponent s) = true
  ∧ percent_decode (encodeURIComponent s) = Some s
  ∧ (string_forall uri_unreserved s = true → encodeURIComponent s = s).
Proof.
  split; [| split].
  - induction s as [| c s IH]; [reflexivity |].
    rewrite encodeURIComponent_cons, string_forall_app, uri_safe_encode_char, IH.
    reflexivity.
  - apply percent_decode_encode.
  - induction s as [| c s IH]; [reflexivity |].
    cbn [string_forall encodeURIComponent]. intros H.
    apply andb_true_iff in H as [Hc Hs]. rewrite Hc, (IH Hs). reflexivity.
Qed.

(** ** The two halves of the page *)

(** X15. The highlight and the submissions do not touch each other's state: a
    click on "Scrivici" or the passing of time leaves the React state, the
    log, the promises, the alerts, the navigation and the contact form as
    they are, and every other event leaves the document, the timers, the
    clock and the scroll position as they are. *)
Theorem highlight_and_submissions_do_not_interfere (w : World) (ev : Event) :
  match ev with
  | ClickScrivici | TimePasses _ =>
      ui (step w ev) = ui w
      ∧ network (step w ev) = network w
      ∧ pending (step w ev) = pending w
      ∧ alerts (step w ev) = alerts w
      ∧ location_href (step w ev) = location_href w
      ∧ form_resets (step w ev) = form_resets w
  | _ =>
      document (step w ev) = document w
      ∧ timers (step w ev) = timers w
      ∧ clock (step w ev) = clock w
      ∧ scrolled (step w ev) = scrolled w
  end.
Proof.
  pose proof (step_keeps_page w ev) as Hk.
  destruct ev as [i now | | fd now | fd now | | promise r | dt];
    try (apply Hk; [discriminate | intros ?; discriminate]).
  - apply step_scrivici_frame.
  - apply step_time_frame.
Qed.

(** X16. The contact form never learns the outcome.  Whatever happens on the
    page before the promise of a contact submission settles, and however it
    settles, the settling removes the promise and changes nothing else. *)
Theorem contact_outcome_is_ignored
    (w : World) (fd : gmap string string) (now : Z)
    (evs : list Event) (r : FetchResult) :
  Forall (fun ev => ∀ r', ev ≠ FetchSettles (length (network w)) r') evs →
  let w2 := run (step w (SubmitContactForm fd now)) evs in
  step w2 (FetchSettles (length (network w)) r)
  = with_pending (delete (length (network w))) w2.
Proof.
  intros Hevs w2.
  assert (Hk : pending w2 !! length (network w) = Some AfterContactFetch).
  { subst w2. apply run_pending_other; [| | exact Hevs].
    - cbn [step]. unfold dispatch. rewrite contactOnSubmit_run.
      apply lookup_insert_eq.
    - cbn [step]. unfold dispatch. rewrite contactOnSubmit_run.
      cbn [network]. rewrite length_app. cbn [length]. lia. }
  exact (step_settle w2 _ _ r Hk).
Qed.

Lemma contact_outcome_is_ignored_witness :
  let w2 :=
    run (step initial (SubmitContactForm {[ "email" := "a@b.com" ]} 0))
      [ClickProduct 0 0] in
  ui (step w2 (FetchSettles 0 (Fulfilled {| ok := false |}))) = ui w2.
Proof.
  cbv zeta.
  rewrite (contact_outcome_is_ignored initial {[ "email" := "a@b.com" ]} 0
             [ClickProduct 0 0] (Fulfilled {| ok := false |})).
  - reflexivity.
  - repeat constructor; discriminate.
Defined.

(** ** Reading an instant back *)

Lemma code_chr (n : Z) : 0 <= n < 256 → code (chr n) = n.
Proof.
  intros H. unfold code, chr.
  rewrite N_ascii_embedding by lia. lia.
Qed.

Lemma digit_value_digit (n : Z) : digit_value (digit n) = Some (n mod 10).
Proof.
  unfold digit_value. rewrite is_digit_digit. unfold digit.
  assert (H : 0 <= n mod 10 < 10) by (apply Z.mod_pos_bound; lia).
  rewrite code_chr by lia. f_equal. lia.
Qed.

Lemma not_sign_digit (n : Z) :
  Ascii.eqb (digit n) "+" = false ∧ Ascii.eqb (digit n) "-" = false.
Proof.
  pose proof (is_digit_digit n) as H. revert H. generalize (digit n). intros c.
  destruct c as [[] [] [] [] [] [] [] []]; vm_compute; intros H;
    first [discriminate H | split; reflexivity].
Qed.

Lemma read_number_pad2 (n acc : Z) (rest : string) :
  0 <= n < 100 →
  read_number 2 acc (pad2 n +:+ rest) = Some (100 * acc + n, rest).
Proof.
  intros H. unfold pad2. cbv [String.append]. cbn [read_number].
  rewrite !digit_value_digit. do 2 f_equal.
  Z.div_mod_to_equations. lia.
Qed.

Lemma read_number_pad3 (n acc : Z) (rest : string) :
  0 <= n < 1000 →
  read_number 3 acc (pad3 n +:+ rest) = Some (1000 * acc + n, rest).
Proof.
  intros H. unfold pad3, pad2. cbv [String.append]. cbn [read_number].
  rewrite !digit_value_digit. do 2 f_equal.
  Z.div_mod_to_equations. lia.
Qed.

Lemma read_number_pad4 (n acc : Z) (rest : string) :
  0 <= n < 10000 →
  read_number 4 acc (pad4 n +:+ rest) = Some (10000 * acc + n, rest).
Proof.
  intros H. unfold pad4, pad3, pad2. cbv [String.append]. cbn [read_number].
  rewrite !digit_value_digit. do 2 f_equal.
  Z.div_mod_to_equations. lia.
Qed.

Lemma read_number_pad6 (n acc : Z) (rest : string) :
  0 <= n < 1000000 →
  read_number 6 acc (pad6 n +:+ rest) = Some (1000000 * acc + n, rest).
Proof.
  intros H. unfold pad6, pad4, pad3, pad2. cbv [String.append]. cbn [read_number].
  rewrite !digit_value_digit. do 2 f_equal.
  Z.div_mod_to_equations. lia.
Qed.

(** The date [civil_from_days] gives is a date of the calendar, and it is
    the date of that day. *)
Lemma civil_from_days_inverse (z y m d : Z) :
  civil_from_days z = (y, m, d) →
  1 <= m <= 12 ∧ 1 <= d <= 31 ∧ days_from_civil y m d = z
  ∧ (z + 719468) / 146097 * 400 <= y <= (z + 719468) / 146097 * 400 + 400.
Proof.
  unfold civil_from_days. set (z' := z + 719468).
  set (era := z' / 146097). set (doe := z' - era * 146097).
  set (yoe := (doe - doe / 1460 + doe / 36524 - doe / 146096) / 365).
  set (doy := doe - (365 * yoe + yoe / 4 - yoe / 100)).
  set (mp := (5 * doy + 2) / 153).
  intros [= <- <- <-].
  assert (Hdoe : 0 <= doe <= 146096) by (subst doe era; Z.div_mod_to_equations; lia).
  assert (Hyoe : 0 <= yoe <= 399) by (subst yoe; Z.div_mod_to_equations; lia).
  assert (Hdoy : 0 <= doy <= 365)
    by (subst doy yoe; Z.div_mod_to_equations; lia).
  assert (Hmp : 0 <= mp <= 11) by (subst mp; Z.div_mod_to_equations; lia).
  assert (Hd : 1 <= doy - (153 * mp + 2) / 5 + 1 <= 31)
    by (subst mp; Z.div_mod_to_equations; lia).
  assert (Edoe : doe = z' - era * 146097) by reflexivity.
  assert (Edoy : doy = doe - (365 * yoe + yoe / 4 - yoe / 100)) by reflexivity.
  assert (Ez : z' = z + 719468) by reflexivity.
  clearbody mp doy yoe doe era z'.
  split; [destruct (Z.ltb_spec mp 10); lia |]. split; [exact Hd |]. split.
  - unfold days_from_civil.
    destruct (Z.ltb_spec mp 10) as [Hlt | Hge].
    + destruct (Z.leb_spec (mp + 3) 2) as [? | _]; [lia |].
      destruct (Z.ltb_spec 2 (mp + 3)) as [_ | ?]; [| lia].
      replace (yoe + era * 400 + 0) with (yoe + era * 400) by lia.
      replace ((yoe + era * 400) / 400) with era
        by (Z.div_mod_to_equations; lia).
      replace (mp + 3 - 3) with mp by lia.
      Z.div_mod_to_equations. lia.
    + destruct (Z.leb_spec (mp - 9) 2) as [_ | ?]; [| lia].
      destruct (Z.ltb_spec 2 (mp - 9)) as [? | _]; [lia |].
      replace (yoe + era * 400 + 1 - 1) with (yoe + era * 400) by lia.
      replace ((yoe + era * 400) / 400) with era
        by (Z.div_mod_to_equations; lia).
      replace (mp - 9 + 9) with mp by lia.
      Z.div_mod_to_equations. lia.
  - destruct ((if mp <? 10 then mp + 3 else mp - 9) <=? 2); lia.
Qed.

Lemma milliseconds_split (ms : Z) :
  0 <= ms →
  ms / 3600000 * 3600000 + ms / 60000 mod 60 * 60000
  + ms / 1000 mod 60 * 1000 + ms mod 1000 = ms.
Proof. intros H. Z.div_mod_to_equations. lia. Qed.

Lemma read_time_tail_pads (m d h mi sec ms : Z) :
  0 <= m < 100 → 0 <= d < 100 → 0 <= h < 100 → 0 <= mi < 100 →
  0 <= sec < 100 → 0 <= ms < 1000 →
  read_time_tail
    ("-" +:+ pad2 m +:+ "-" +:+ pad2 d +:+ "T" +:+ pad2 h +:+ ":" +:+ pad2 mi
     +:+ ":" +:+ pad2 sec +:+ "." +:+ pad3 ms +:+ "Z")
  = Some (m, d, h, mi, sec, ms).
Proof.
  intros Hm Hd Hh Hmi Hsec Hms. unfold read_time_tail.
  repeat first
    [ rewrite read_number_pad2 by assumption
    | rewrite read_number_pad3 by assumption
    | progress change (String.append (String ?c EmptyString) ?x) with (String c x)
    | progress cbn [read_char mbind option_bind]
    | progress change (Ascii.eqb ?c ?c) with true
    | progress cbv iota ].
  rewrite !Z.mul_0_r, !Z.add_0_l. reflexivity.
Qed.

(** X17. The instant [toISOString] prints reads back as the clock reading it was
    printed from, for every time value a [Date] can hold. *)
Theorem Date_parse_toISOString (t : Z) :
  -8640000000000000 <= t <= 8640000000000000 →
  Date_parse (toISOString t) = Some t.
Proof.
  intros Ht. unfold toISOString.
  destruct (civil_from_days (t / msPerDay)) as [[y m] d] eqn:E.
  apply civil_from_days_inverse in E as (Hm & Hd & Hdays & Hy).
  unfold msPerDay in *.
  set (ms := t mod 86400000) in *.
  assert (Hms : 0 <= ms < 86400000) by (subst ms; apply Z.mod_pos_bound; lia).
  assert (Hyear : -999999 <= y <= 999999) by (Z.div_mod_to_equations; lia).
  pose proof (read_time_tail_pads m d (ms / 3600000) (ms / 60000 mod 60)
                (ms / 1000 mod 60) (ms mod 1000)) as Htail.
  match type of Htail with
  | _ → _ → _ → _ → _ → _ → read_time_tail ?s = _ => set (tail := s) in *
  end.
  assert (Hyr : read_year (iso_year y +:+ tail) = Some (y, tail)).
  { unfold iso_year.
    destruct (Z.leb_spec 0 y) as [H0 | H0]; cbn [andb].
    - destruct (Z.leb_spec y 9999) as [H9 | H9].
      + unfold pad4 at 1.
        change (String ?c ?x +:+ tail) with (String c (x +:+ tail)).
        cbn [read_year].
        destruct (not_sign_digit (y / 1000)) as [-> ->].
        change (String (digit (y / 1000)) (pad3 y +:+ tail)) with (pad4 y +:+ tail).
        rewrite read_number_pad4 by lia. do 2 f_equal; lia.
      + destruct (Z.ltb_spec y 0) as [? | _]; [lia |].
        change (String "+" (pad6 y) +:+ tail) with (String "+" (pad6 y +:+ tail)).
        cbn [read_year]. change (Ascii.eqb "+" "+") with true. cbv iota.
        rewrite read_number_pad6 by lia. do 2 f_equal; lia.
    - destruct (Z.ltb_spec y 0) as [_ | ?]; [| lia].
      change (String "-" (pad6 (- y)) +:+ tail)
        with (String "-" (pad6 (- y) +:+ tail)).
      cbn [read_year]. change (Ascii.eqb "-" "+") with false.
      change (Ascii.eqb "-" "-") with true. cbv iota.
      rewrite read_number_pad6 by lia. do 2 f_equal; lia. }
  unfold Date_parse. rewrite Hyr. cbn [mbind option_bind].
  rewrite Htail by (try lia; Z.div_mod_to_equations; lia).
  cbn [mbind option_bind].
  assert (Hc : (1 <=? m) && (m <=? 12) && (1 <=? d) && (d <=? 31)
               && (ms / 3600000 <? 24) && (ms / 60000 mod 60 <? 60)
               && (ms / 1000 mod 60 <? 60) = true).
  { repeat (apply andb_true_intro; split);
      first [apply Z.leb_le | apply Z.ltb_lt];
      try lia; Z.div_mod_to_equations; lia. }
  rewrite Hc. f_equal. rewrite Hdays.
  pose proof (milliseconds_split ms ltac:(lia)) as Hsplit.
  pose proof (Z.div_mod t 86400000 ltac:(lia)) as Hdiv. fold ms in Hdiv.
  unfold msPerDay. lia.
Qed.

Lemma Date_parse_toISOString_witness :
  Date_parse "2026-11-02T16:00:00.123Z" = Some 1793635200123.
Proof.
  exact (Date_parse_toISOString 1793635200123 ltac:(lia)).
Defined.
